(** * Averell: reader, granularity reducer and pipeline

    A shallow embedding of the Python package [averell]:
    - [readers/plsdo.py]: [parse_xml], [get_features];
    - [utils.py]: [download_corpora], [get_stanza_features],
      [get_line_features], [get_word_features], [get_syllable_features],
      [filter_features];
    - [core.py]: [get_corpora].

    Python strings are sequences of code points, modelled as [list N].
    Python exceptions are values of [exn]; fallible code returns [result].
    Python dicts are insertion-ordered association lists whose keys are
    kept unique by [dict_set]. *)

From Stdlib Require Import List NArith ZArith Ascii String Bool Lia
  Numbers.DecimalString.
Import ListNotations.
Set Warnings "-register-all".

(* ------------------------------------------------------------------ *)
(** ** Python strings, exceptions, values *)

Definition pystr := list N.

(** An ASCII literal as a Python string. *)
Definition u (s : string) : pystr :=
  map (fun a => N.of_nat (nat_of_ascii a)) (list_ascii_of_string s).

Fixpoint str_eqb (a b : pystr) : bool :=
  match a, b with
  | [], [] => true
  | x :: a', y :: b' => N.eqb x y && str_eqb a' b'
  | _, _ => false
  end.

(** [needle in hay] for strings. *)
Fixpoint is_prefix (p s : pystr) : bool :=
  match p, s with
  | [], _ => true
  | x :: p', y :: s' => N.eqb x y && is_prefix p' s'
  | _ :: _, [] => false
  end.

Fixpoint str_contains (needle hay : pystr) : bool :=
  is_prefix needle hay ||
  match hay with
  | [] => false
  | _ :: hay' => str_contains needle hay'
  end.

(** [str(n)] for a natural number. *)
Definition str_of_nat (n : nat) : pystr :=
  u (NilEmpty.string_of_uint (Nat.to_uint n)).

Inductive exn :=
| KeyError | IndexError | TypeError | ValueError | AttributeError
| ParseError | OSError | URLError | ImportError.

Inductive result (A : Type) : Type :=
| Ok (a : A)
| Err (e : exn).
Arguments Ok {A} a.
Arguments Err {A} e.

Definition bind {A B} (m : result A) (f : A -> result B) : result B :=
  match m with
  | Ok a => f a
  | Err e => Err e
  end.

Notation "'let*' x ':=' m 'in' k" := (bind m (fun x => k))
  (at level 200, x name, m at level 100, k at level 200).

Definition of_option {A} (e : exn) (o : option A) : result A :=
  match o with Some a => Ok a | None => Err e end.

Fixpoint mapR {A B} (f : A -> result B) (l : list A) : result (list B) :=
  match l with
  | [] => Ok []
  | x :: l' => let* y := f x in let* ys := mapR f l' in Ok (y :: ys)
  end.

(** Python list indexing [l[i]], negative indices counting from the end. *)
Definition py_index {A} (l : list A) (i : Z) : result A :=
  let n := Z.of_nat (List.length l) in
  let j := if (i <? 0)%Z then (i + n)%Z else i in
  if ((0 <=? j)%Z && (j <? n)%Z)%bool
  then of_option IndexError (nth_error l (Z.to_nat j))
  else Err IndexError.

(** JSON-like Python values and dicts. *)
Inductive value :=
| VNone
| VBool (b : bool)
| VInt (z : Z)
| VStr (s : pystr)
| VList (l : list value)
| VDict (d : list (pystr * value)).

Definition dict := list (pystr * value).

Definition opt_str (o : option pystr) : value :=
  match o with Some s => VStr s | None => VNone end.

Fixpoint lookup (d : dict) (k : pystr) : option value :=
  match d with
  | [] => None
  | (k', v) :: d' => if str_eqb k' k then Some v else lookup d' k
  end.

(** [d[k] = v]: overwrite in place, or append a new key. *)
Fixpoint dict_set (d : dict) (k : pystr) (v : value) : dict :=
  match d with
  | [] => [(k, v)]
  | (k', v') :: d' =>
      if str_eqb k' k then (k, v) :: d' else (k', v') :: dict_set d' k v
  end.

(** [d1.update(d2)] *)
Definition dict_update (d1 d2 : dict) : dict :=
  fold_left (fun d kv => dict_set d (fst kv) (snd kv)) d2 d1.

(** [{**a, **b}] *)
Definition merge (a b : dict) : dict := dict_update (dict_update [] a) b.

(** [d.pop(k)]: the dict without [k], [KeyError] when absent. *)
Definition dict_pop (d : dict) (k : pystr) : result dict :=
  match lookup d k with
  | Some _ => Ok (filter (fun kv => negb (str_eqb (fst kv) k)) d)
  | None => Err KeyError
  end.

(* ------------------------------------------------------------------ *)
(** ** Metrical-pattern normalisation and synalepha (plsdo.py) *)

Definition PIPE : N := 124.      (* '|' *)
Definition PLUS : N := 43.       (* '+' *)
Definition NEWLINE : N := 10.    (* '\n' *)

Definition is_digit (c : N) : bool := (48 <=? c)%N && (c <=? 57)%N.

(** [s.replace("|", "")] *)
Definition replace_pipe (s : pystr) : pystr :=
  filter (fun c => negb (N.eqb c PIPE)) s.

(** [re.sub(r"[0-9]+", "+", s)]: the scan remembers whether it is inside
    a run of digits already replaced. *)
Fixpoint sub_digit_runs_from (in_run : bool) (s : pystr) : pystr :=
  match s with
  | [] => []
  | c :: s' =>
      if is_digit c
      then if in_run then sub_digit_runs_from true s'
           else PLUS :: sub_digit_runs_from true s'
      else c :: sub_digit_runs_from false s'
  end.

Definition sub_digit_runs (s : pystr) : pystr := sub_digit_runs_from false s.

(** [re.sub(r"[0-9]+", "+", line.attrib["met"].replace("|", ""))] *)
Definition metrical_pattern_of (met : pystr) : pystr :=
  sub_digit_runs (replace_pipe met).

(** The class [[aeiouáéíóú]] of [re.match(r"[aeiouáéíóú]", c)]. *)
Definition synalepha_vowels : list N :=
  [97; 101; 105; 111; 117; 225; 233; 237; 243; 250]%N.

Definition is_synalepha_vowel (c : N) : bool :=
  existsb (N.eqb c) synalepha_vowels.

(** [s.split(sep)] *)
Fixpoint py_split (sep : N) (s : pystr) : list pystr :=
  match s with
  | [] => [[]]
  | c :: s' =>
      let rest := py_split sep s' in
      if N.eqb c sep then [] :: rest
      else match rest with
           | [] => [[c]]
           | r :: rs => (c :: r) :: rs
           end
  end.

(** [sep.join(l)] *)
Fixpoint py_join (sep : pystr) (l : list pystr) : pystr :=
  match l with
  | [] => []
  | [x] => x
  | x :: l' => x ++ sep ++ py_join sep l'
  end.

(* ------------------------------------------------------------------ *)
(** ** The canonical poem record *)

Record word := mkWord {
  word_text : pystr;
  syllables : list pystr;
  has_synalepha : bool  (* the key is present only when true *)
}.

Record line := mkLine {
  line_number : pystr;
  line_text : pystr;
  metrical_pattern : pystr;
  words : list word
}.

Record stanza := mkStanza {
  stanza_number : pystr;
  stanza_type : pystr;
  lines : list line;
  stanza_text : pystr
}.

Record poem := mkPoem {
  poem_title : option pystr;
  author : option pystr;
  manually_checked : bool;
  stanzas : list stanza
}.

(** The dicts built by [parse_xml]. *)
Definition word_dict (w : word) : dict :=
  [(u "word_text", VStr (word_text w));
   (u "syllables", VList (map VStr (syllables w)))] ++
  (if has_synalepha w then [(u "has_synalepha", VBool true)] else []).

Definition line_dict (l : line) : dict :=
  [(u "line_number", VStr (line_number l));
   (u "line_text", VStr (line_text l));
   (u "metrical_pattern", VStr (metrical_pattern l));
   (u "words", VList (map (fun w => VDict (word_dict w)) (words l)))].

(* ------------------------------------------------------------------ *)
(** ** ElementTree documents *)

(** Element tags: a name, or the [ETree.Comment] factory that
    [CommentedTreeBuilder] uses for comment nodes. *)
Inductive tag_kind := Tag (name : pystr) | CommentNode.

Inductive element :=
| Elem (tg : tag_kind) (attrib : list (pystr * pystr))
       (text : option pystr) (tail : option pystr) (children : list element).

Definition el_tag (e : element) : tag_kind := let '(Elem t _ _ _ _) := e in t.
Definition el_attrib (e : element) := let '(Elem _ a _ _ _) := e in a.
Definition el_text (e : element) := let '(Elem _ _ t _ _) := e in t.
Definition el_tail (e : element) := let '(Elem _ _ _ t _) := e in t.
Definition el_children (e : element) := let '(Elem _ _ _ _ c) := e in c.

(** A file found by [rglob('*.xml')]: well-formed XML, or not. *)
Inductive xml_file := WellFormed (root : element) | Malformed.

Definition TEI (s : string) : pystr := u ("{http://www.tei-c.org/ns/1.0}" ++ s).

Definition has_tag (name : pystr) (e : element) : bool :=
  match el_tag e with Tag n => str_eqb n name | CommentNode => false end.

(** [e.iter()]: pre-order, [e] first. *)
Fixpoint iter (e : element) : list element :=
  let '(Elem _ _ _ _ cs) := e in e :: flat_map iter cs.

(** The elements selected by [.//*] from [e]: [e.iter()] without [e]. *)
Definition descendants (e : element) : list element :=
  flat_map iter (el_children e).

(** [e.itertext()] as CPython's accelerated [_elementtree] runs it: the
    text of every element, comments kept by [CommentedTreeBuilder]
    included, with the tails of its descendants. *)
Fixpoint itertext (e : element) : list pystr :=
  let '(Elem _ _ t _ cs) := e in
  (match t with Some s => [s] | None => [] end) ++
  flat_map (fun c => itertext c ++
              match el_tail c with Some s => [s] | None => [] end) cs.

(** [e.attrib[k]] *)
Definition attr (e : element) (k : string) : result pystr :=
  of_option KeyError
    (option_map snd (find (fun kv => str_eqb (fst kv) (u k)) (el_attrib e))).

Definition children_tagged (name : pystr) (e : element) : list element :=
  filter (has_tag name) (el_children e).

(** [root.find(".//*{tei}metDecl/{tei}p")], as a list of all matches. *)
Definition select_metdecl_p (root : element) : list element :=
  flat_map (fun d => flat_map (children_tagged (TEI "p"))
                              (children_tagged (TEI "metDecl") d))
           (descendants root).

(** [root.findall(".//{tei}" ++ name)] *)
Definition findall_desc (name : pystr) (e : element) : list element :=
  filter (has_tag name) (descendants e).

(** [root.find(".//{tei}bibl/{tei}" ++ name)], as a list of all matches. *)
Definition select_bibl (name : string) (root : element) : list element :=
  flat_map (children_tagged (TEI name)) (findall_desc (TEI "bibl") root).

(** [find] returns the first match or [None]; an attribute access on
    [None] raises [AttributeError]. *)
Definition first_or_attr_error (l : list element) : result element :=
  match l with x :: _ => Ok x | [] => Err AttributeError end.

(* ------------------------------------------------------------------ *)
(** ** [parse_xml] and [get_features] (readers/plsdo.py) *)

(** One [w] element of a line:
    [has_synalepha] tests [word.text[-1]], the last character of the
    element's raw text; the syllables are
    [[*filter(bool, word.text.split("|"))]] and [word_text] their join. *)
Definition parse_word (w : element) : result word :=
  let* t := of_option TypeError (el_text w) in
  let* c := py_index t (-1) in
  let syls := filter (fun s => negb (str_eqb s [])) (py_split PIPE t) in
  Ok (mkWord (List.concat syls) syls (is_synalepha_vowel c)).

(** What the loop body over one [line] computes before the stanza text
    is joined: [line_text] may still be [None] here. *)
Record line_parts := mkParts {
  lp_text : option pystr;
  lp_number : pystr;
  lp_pattern : pystr;
  lp_words : list word
}.

Definition parse_line (l : element) : result line_parts :=
  let* met := attr l "met" in
  let mp := metrical_pattern_of met in
  let* first := py_index (el_children l) 0 in
  let lt := el_text first in
  let* ws := mapR parse_word (findall_desc (TEI "w") l) in
  let* n := attr l "n" in
  Ok (mkParts lt n mp ws).

(** One [lg] element, at position [i] of [enumerate(line_group_list)];
    ["\n".join(stanza_text)] raises [TypeError] on a [None] line text. *)
Definition parse_stanza (i : nat) (lg : element) : result stanza :=
  let* ty := attr lg "type" in
  let* parts := mapR parse_line (el_children lg) in
  let* texts := mapR (fun lp => of_option TypeError (lp_text lp)) parts in
  let ls := map (fun '(lp, t) => mkLine (lp_number lp) t (lp_pattern lp) (lp_words lp))
                (combine parts texts) in
  Ok (mkStanza (str_of_nat (S i)) ty ls (py_join [NEWLINE] texts)).

Fixpoint enum_mapR {A B} (f : nat -> A -> result B) (i : nat) (l : list A)
  : result (list B) :=
  match l with
  | [] => Ok []
  | x :: l' => let* y := f i x in let* ys := enum_mapR f (S i) l' in Ok (y :: ys)
  end.

Definition parse_xml (f : xml_file) : result poem :=
  match f with
  | Malformed => Err ParseError
  | WellFormed root =>
      let* p := first_or_attr_error (select_metdecl_p root) in
      let analysis_description := List.concat (itertext p) in
      let line_group_list := findall_desc (TEI "lg") root in
      let* te := first_or_attr_error (select_bibl "title" root) in
      let* ae := first_or_attr_error (select_bibl "author" root) in
      let mc := str_contains (u "manual") analysis_description in
      let* sts := enum_mapR parse_stanza 0 line_group_list in
      Ok (mkPoem (el_text te) (el_text ae) mc sts)
  end.

(** [get_features(path)]: the files are those of [path.rglob('*.xml')],
    in that order. *)
Definition get_features (files : list xml_file) : result (list poem) :=
  mapR parse_xml files.

(* ------------------------------------------------------------------ *)
(** ** Granularity reducer (utils.py) *)

Definition all_lines (p : poem) : list line := flat_map lines (stanzas p).

Definition stanza_row (p : poem) (s : stanza) : dict :=
  [(u "stanza_number", VStr (stanza_number s));
   (u "manually_checked", VBool (manually_checked p));
   (u "poem_title", opt_str (poem_title p));
   (u "author", opt_str (author p));
   (u "stanza_text", VStr (stanza_text s));
   (u "stanza_type", VStr (stanza_type s))].

Definition get_stanza_features (p : poem) : list dict :=
  map (stanza_row p) (stanzas p).

(** [if not line.get("words"): line_features.update(line)] and otherwise
    the three assignments into the empty dict. *)
Definition line_features (l : line) : dict :=
  match words l with
  | [] => dict_update [] (line_dict l)
  | _ :: _ =>
      [(u "line_number", VStr (line_number l));
       (u "line_text", VStr (line_text l));
       (u "metrical_pattern", VStr (metrical_pattern l))]
  end.

(** [stanza_features[i]] is the row of [features["stanzas"][i]], so the
    loop over [enumerate(stanza_features)] pairs each stanza with its row. *)
Definition get_line_features (p : poem) : list dict :=
  flat_map (fun s => map (fun l => merge (line_features l) (stanza_row p s))
                         (lines s))
           (stanzas p).

Section Reduce.

(** [int(s)] on a string; [None] is the [ValueError] it raises. *)
Variable py_int : pystr -> option Z.

(** [word_features = {"word_text": ...}; word_features.update(
    all_lines_features[line_number - 1]); word_features.pop("stanza_text")] *)
Definition word_row (lrows : list dict) (n : Z) (w : word) : result dict :=
  let wf := [(u "word_text", VStr (word_text w))] in
  let* lf := py_index lrows (n - 1) in
  dict_pop (dict_update wf lf) (u "stanza_text").

Definition get_word_features (p : poem) : result (list dict) :=
  let lrows := get_line_features p in
  let* rows := mapR (fun l =>
                  let* n := of_option ValueError (py_int (line_number l)) in
                  mapR (word_row lrows n) (words l))
                (all_lines p) in
  Ok (List.concat rows).

(** The syllables of one word, at running index [k] of
    [all_words_features]. *)
Definition syllable_rows (wrows : list dict) (n : Z) (k : nat) (w : word)
  : result (list dict) :=
  mapR (fun s =>
          let sf := [(u "syllable", VStr s); (u "line_number", VInt n)] in
          let* wf := py_index wrows (Z.of_nat k) in
          Ok (dict_update sf wf))
       (syllables w).

Fixpoint syllables_of_words (wrows : list dict) (n : Z) (k : nat)
  (ws : list word) : result (list dict * nat) :=
  match ws with
  | [] => Ok ([], k)
  | w :: ws' =>
      let* rs := syllable_rows wrows n k w in
      let* rest := syllables_of_words wrows n (S k) ws' in
      Ok (rs ++ fst rest, snd rest)
  end.

Fixpoint syllables_of_lines (wrows : list dict) (k : nat) (ls : list line)
  : result (list dict) :=
  match ls with
  | [] => Ok []
  | l :: ls' =>
      let* n := of_option ValueError (py_int (line_number l)) in
      let* r := syllables_of_words wrows n k (words l) in
      let* rest := syllables_of_lines wrows (snd r) ls' in
      Ok (fst r ++ rest)
  end.

Definition get_syllable_features (p : poem) : result (list dict) :=
  let* wrows := get_word_features p in
  syllables_of_lines wrows 0 (all_lines p).

(** The dispatch of [filter_features] once [granularity] is known to be
    in the corpus's list. *)
Definition reduce (g : pystr) (p : poem) : result (list dict) :=
  if str_eqb g (u "stanza") then Ok (get_stanza_features p)
  else if str_eqb g (u "line") then Ok (get_line_features p)
  else if str_eqb g (u "word") then get_word_features p
  else if str_eqb g (u "syllable") then get_syllable_features p
  else Ok [].

End Reduce.

(** A model of [int(s)] on ASCII input: surrounding whitespace, an
    optional sign, decimal digits with single underscores between them. *)
Definition is_py_space (c : N) : bool :=
  N.eqb c 32 || ((9 <=? c)%N && (c <=? 13)%N) || ((28 <=? c)%N && (c <=? 31)%N).

Fixpoint drop_space (s : pystr) : pystr :=
  match s with
  | c :: s' => if is_py_space c then drop_space s' else s
  | [] => []
  end.

Definition py_strip (s : pystr) : pystr := rev (drop_space (rev (drop_space s))).

Fixpoint digits_value (acc : Z) (after_digit : bool) (s : pystr) : option Z :=
  match s with
  | [] => if after_digit then Some acc else None
  | c :: s' =>
      if is_digit c then digits_value (acc * 10 + Z.of_N (c - 48))%Z true s'
      else if N.eqb c 95 && after_digit then digits_value acc false s'
      else None
  end.

Definition int_ascii (s : pystr) : option Z :=
  match py_strip s with
  | 43 :: r => digits_value 0 false r
  | 45 :: r => option_map Z.opp (digits_value 0 false r)
  | t => digits_value 0 false t
  end%N.

(** Small TEI documents. *)
Definition mk_w (t : string) : element :=
  Elem (Tag (TEI "w")) [] (Some (u t)) None [].

Definition mk_l (n met txt : string) (ws : list string) : element :=
  Elem (Tag (TEI "l")) [(u "n", u n); (u "met", u met)] None None
       (Elem (Tag (TEI "seg")) [] (Some (u txt)) None [] :: map mk_w ws).

Definition mk_lg (ty : string) (ls : list element) : element :=
  Elem (Tag (TEI "lg")) [(u "type", u ty)] None None ls.

Definition mk_doc (title auth desc : string) (lgs : list element) : xml_file :=
  WellFormed
    (Elem (Tag (TEI "TEI")) [] None None
       [Elem (Tag (TEI "teiHeader")) [] None None
          [Elem (Tag (TEI "fileDesc")) [] None None
             [Elem (Tag (TEI "bibl")) [] None None
                [Elem (Tag (TEI "title")) [] (Some (u title)) None [];
                 Elem (Tag (TEI "author")) [] (Some (u auth)) None []]];
           Elem (Tag (TEI "encodingDesc")) [] None None
             [Elem (Tag (TEI "metDecl")) [] None None
                [Elem (Tag (TEI "p")) [] (Some (u desc)) None []]]];
        Elem (Tag (TEI "text")) [] None None lgs]).

(* ------------------------------------------------------------------ *)
(** ** The pipeline: [download_corpora] (utils.py), [get_corpora] (core.py) *)

(** An entry of [CORPORA_SOURCES]: its ["name"] and ["properties"]. *)
Record corpus := mkCorpus {
  name : pystr;
  folder_name : pystr;
  url : pystr;
  reader : pystr;
  granularity : list pystr
}.

Inductive level := INFO | ERROR.

Record log_record := mkLog { lvl : level; msg : pystr }.

(** What [get_corpora] appends to [corpora_features]: the poems of a
    corpus, or the rows of one poem at the requested granularity. *)
Inductive collected := Poems (ps : list poem) | Rows (rs : list dict).

Definition slash (a b : pystr) : pystr := a ++ u "/" ++ b.

(** [s.replace(" ", "")] *)
Definition remove_spaces (s : pystr) : pystr := filter (fun c => negb (N.eqb c 32)) s.

Definition in_list (g : pystr) (l : list pystr) : bool := existsb (str_eqb g) l.

Definition MSG_INDEX : pystr := u "Index number not in corpora list".
Definition MSG_NO_CORPUS : pystr := u "No corpus selected. Nothing will be downloaded".

Definition msg_downloaded (c : corpus) : pystr :=
  u "Corpus " ++ name c ++ u " already downloaded".

Definition msg_granularity (g : pystr) (c : corpus) : pystr :=
  u "'" ++ g ++ u "' granularity not found on '" ++ name c ++ u "' properties".

Definition poem_dict (p : poem) : dict :=
  [(u "poem_title", opt_str (poem_title p));
   (u "author", opt_str (author p));
   (u "manually_checked", VBool (manually_checked p));
   (u "stanzas", VList (map (fun s =>
      VDict [(u "stanza_number", VStr (stanza_number s));
             (u "stanza_type", VStr (stanza_type s));
             (u "lines", VList (map (fun l => VDict (line_dict l)) (lines s)));
             (u "stanza_text", VStr (stanza_text s))]) (stanzas p)))].

Section Pipeline.

Context {World : Type}.

(** The file system and the network, as the code uses them. *)
Variable folder_exists : World -> pystr -> bool.
(** [uncompress_corpus(download_corpus(url), output_folder)] *)
Variable download_archive : pystr -> pystr -> World -> result World.
(** [getattr(importlib.import_module(reader), "get_features")(path)] *)
Variable read_corpus : pystr -> pystr -> World -> result (list poem).
(** [if not path.exists(): os.makedirs(path)] *)
Variable make_dirs : pystr -> World -> result World.
(** [write_json(data, filename)] *)
Variable write_json : value -> pystr -> World -> result World.
(** [str.title] *)
Variable py_title : pystr -> pystr.
Variable py_int : pystr -> option Z.
(** [CORPORA_SOURCES] *)
Variable corpora_sources : list corpus.

(** State threaded through [get_corpora]: the world and the list
    [corpora_features]; log records are an output. *)
Record St := mkSt { world : World; out : list collected }.

Definition M (A : Type) : Type := St -> result A * St * list log_record.

Definition mret {A} (a : A) : M A := fun s => (Ok a, s, []).

Definition mbind {A B} (m : M A) (f : A -> M B) : M B :=
  fun s =>
    match m s with
    | (Ok a, s1, l1) => let '(r, s2, l2) := f a s1 in (r, s2, l1 ++ l2)
    | (Err e, s1, l1) => (Err e, s1, l1)
    end.

Notation "'let!' x ':=' m 'in' k" := (mbind m (fun x => k))
  (at level 200, x name, m at level 100, k at level 200).

Definition lift {A} (r : result A) : M A := fun s => (r, s, []).

Definition log (lv : level) (m : pystr) : M unit :=
  fun s => (Ok tt, s, [mkLog lv m]).

Definition on_world (f : World -> result World) : M unit :=
  fun s => match f (world s) with
           | Ok w => (Ok tt, mkSt w (out s), [])
           | Err e => (Err e, s, [])
           end.

Definition read (f : World -> result (list poem)) : M (list poem) :=
  fun s => (f (world s), s, []).

Definition append (x : collected) : M unit :=
  fun s => (Ok tt, mkSt (world s) (out s ++ [x]), []).

(** The body of [download_corpora]'s [try]. *)
Definition download_one (output_folder : pystr) (i : Z) : M unit :=
  let! c := lift (py_index corpora_sources i) in
  fun s =>
    if folder_exists (world s) (slash output_folder (folder_name c))
    then log INFO (msg_downloaded c) s
    else on_world (download_archive (url c) output_folder) s.

(** The loop of [download_corpora]: [except IndexError] logs and
    [return "Error"], ending the loop; other exceptions propagate. *)
Fixpoint download_loop (output_folder : pystr) (idx : list Z) : M unit :=
  match idx with
  | [] => mret tt
  | i :: idx' =>
      fun s =>
        match download_one output_folder i s with
        | (Ok _, s1, l1) =>
            let '(r, s2, l2) := download_loop output_folder idx' s1 in
            (r, s2, l1 ++ l2)
        | (Err IndexError, s1, l1) => (Ok tt, s1, l1 ++ [mkLog ERROR MSG_INDEX])
        | (Err e, s1, l1) => (Err e, s1, l1)
        end
  end.

Definition download_corpora (idx : option (list Z)) (output_folder : pystr)
  : M unit :=
  match idx with
  | Some ((_ :: _) as l) => download_loop output_folder l
  | _ => log ERROR MSG_NO_CORPUS
  end.

(** [filter_features(poem, index, granularity)] *)
Definition filter_features (p : poem) (i : Z) (g : pystr) : result (list dict) :=
  let* c := py_index corpora_sources i in
  if in_list g (granularity c) then reduce py_int g p else Ok [].

Definition author_of (p : poem) : result pystr :=
  of_option AttributeError (option_map remove_spaces (author p)).

Definition title_file (p : poem) : result pystr :=
  of_option AttributeError
    (option_map (fun t => remove_spaces (py_title t)) (poem_title p)).

Fixpoint iterM {A} (f : A -> M unit) (l : list A) : M unit :=
  match l with
  | [] => mret tt
  | x :: l' => let! _ := f x in iterM f l'
  end.

(** [for poem in features:] writing the parsed poem. *)
Definition save_poem (base : pystr) (p : poem) : M unit :=
  let! a := lift (author_of p) in
  let author_path := slash (slash (slash base (u "averell")) (u "parser")) a in
  let! _ := on_world (make_dirs author_path) in
  let! t := lift (title_file p) in
  on_world (write_json (VDict (poem_dict p)) (slash author_path t)).

(** [for poem in features:] at a supported granularity. *)
Definition save_filtered (base : pystr) (i : Z) (g : pystr) (p : poem) : M unit :=
  let! rows := lift (filter_features p i g) in
  let! a := lift (author_of p) in
  let gpath := slash (slash (slash base (u "averell")) g) a in
  match rows with
  | [] => mret tt
  | _ :: _ =>
      let! _ := on_world (make_dirs gpath) in
      let! t := lift (title_file p) in
      let! _ := on_world (write_json (VList (map VDict rows)) (slash gpath t)) in
      append (Rows rows)
  end.

(** The body of [for index in corpus_indices:]. *)
Definition process_corpus (output_folder : pystr) (g : option pystr) (i : Z)
  : M unit :=
  let! c := lift (py_index corpora_sources i) in
  let base := slash output_folder (folder_name c) in
  let! features := read (read_corpus (reader c) base) in
  let! _ := iterM (save_poem base) features in
  match g with
  | Some gr =>
      if in_list gr (granularity c)
      then iterM (save_filtered base i gr) features
      else log ERROR (msg_granularity gr c)
  | None => append (Poems features)
  end.

(** [for index in corpus_indices:]; iterating [None] raises [TypeError]. *)
Definition corpus_loop (output_folder : pystr) (g : option pystr)
  (idx : option (list Z)) : M unit :=
  match idx with
  | Some l => iterM (process_corpus output_folder g) l
  | None => lift (Err TypeError)
  end.

(** [get_corpora]: [except IndexError] logs, and [finally: return
    corpora_features] returns the list gathered so far whatever happened,
    discarding any other exception. *)
Definition get_corpora (idx : option (list Z)) (g : option pystr)
  (output_folder : pystr) : M (list collected) :=
  fun s0 =>
    let s := mkSt (world s0) [] in
    let '(r, s1, l1) :=
      (let! _ := download_corpora idx output_folder in
       corpus_loop output_folder g idx) s in
    let l := match r with
             | Err IndexError => l1 ++ [mkLog ERROR MSG_INDEX]
             | _ => l1
             end in
    (Ok (out s1), s1, l).

End Pipeline.

(* ------------------------------------------------------------------ *)
(** ** [progress_bar] (utils.py): the [reporthook] given to [urlretrieve] *)

(** The two fields of the [tqdm] instance the hook touches. *)
Record tqdm_bar := mkBar { bar_total : option Z; bar_n : Z }.

(** [t.update(k)] adds [k] to the counter. *)
Definition tqdm_update (k : Z) (t : tqdm_bar) : tqdm_bar :=
  mkBar (bar_total t) (bar_n t + k).

(** The bar and the closure's cell [last_b[0]]. *)
Record hook_state := mkHook { bar : tqdm_bar; last_b : Z }.

Definition progress_bar (t : tqdm_bar) : hook_state := mkHook t 0.

(** [update_to(b, bsize, tsize)] *)
Definition update_to (b bsize : Z) (tsize : option Z) (h : hook_state) : hook_state :=
  let t := bar h in
  let t1 := match tsize with
            | Some ts => mkBar (Some ts) (bar_n t)
            | None => t
            end in
  mkHook (tqdm_update ((b - last_b h) * bsize) t1) b.

(** The calls [urlretrieve] makes, [(blocknum, bs, size)], in order. *)
Definition run_hook (h : hook_state) (calls : list (Z * Z * option Z)) : hook_state :=
  fold_left (fun h c => let '(b, bs, ts) := c in update_to b bs ts h) calls h.

(* ------------------------------------------------------------------ *)
(** ** Vocabulary of the statements, and concrete inputs *)

Definition ends_with_digit (s : pystr) : bool :=
  match rev s with c :: _ => is_digit c | [] => false end.

Definition starts_with_digit (s : pystr) : bool :=
  match s with c :: _ => is_digit c | [] => false end.

(** The [in_run] flag of [sub_digit_runs_from] after scanning [s]. *)
Fixpoint flag_after (b : bool) (s : pystr) : bool :=
  match s with [] => b | c :: s' => flag_after (is_digit c) s' end.

Fixpoint nodupb (l : list pystr) : bool :=
  match l with
  | [] => true
  | x :: l' => negb (existsb (str_eqb x) l') && nodupb l'
  end.

(** The words of a poem in document order, each with its line. *)
Definition word_occurrences (p : poem) : list (line * word) :=
  flat_map (fun l => map (fun w => (l, w)) (words l)) (all_lines p).

Definition error_records (logs : list log_record) : list log_record :=
  filter (fun r => match lvl r with ERROR => true | INFO => false end) logs.

(** A step of [get_corpora] that logs nothing and leaves
    [corpora_features] as it was. *)
Definition quiet {World A : Type} (m : @M World A) : Prop :=
  forall s r s' l, m s = (r, s', l) -> l = [] /\ out s' = out s.

(** A step of [get_corpora] that, whatever its outcome, only appends to
    [corpora_features], and only entries satisfying [P]. *)
Definition appends_only {World A : Type} (P : collected -> Prop) (m : @M World A) : Prop :=
  forall s r s' l, m s = (r, s', l) ->
    exists added, out s' = out s ++ added /\ Forall P added.

(** What [get_corpora] may collect for a granularity argument: the poems
    of a corpus without one, a non-empty list of rows with one. *)
Definition collected_for (g : option pystr) (x : collected) : Prop :=
  match g, x with
  | None, Poems _ => True
  | Some _, Rows (_ :: _) => True
  | _, _ => False
  end.

(** A rough ASCII [str.title], for the concrete runs below. *)
Definition is_alpha (c : N) : bool :=
  ((65 <=? c)%N && (c <=? 90)%N) || ((97 <=? c)%N && (c <=? 122)%N).

Fixpoint ascii_title_from (prev_alpha : bool) (s : pystr) : pystr :=
  match s with
  | [] => []
  | c :: s' =>
      let c' := if prev_alpha
                then (if ((65 <=? c)%N && (c <=? 90)%N) then c + 32 else c)%N
                else (if ((97 <=? c)%N && (c <=? 122)%N) then c - 32 else c)%N in
      c' :: ascii_title_from (is_alpha c) s'
  end.

Definition ascii_title (s : pystr) : pystr := ascii_title_from false s.

Definition doc_rosa : xml_file :=
  mk_doc "Rosa" "Ana Lopez" "checked manually"
    [mk_lg "cuarteto" [mk_l "1" "2|2|2|2" "Soy una rosa" ["Soy"%string; "u|na"%string; "ro|sa|"%string]];
     mk_lg "verso" [mk_l "2" "3|3" "que muere" ["que"%string; "mue|re"%string]]].

(** A line numbered ["0"] in a one-line poem. *)
Definition doc_zero : xml_file :=
  mk_doc "Cero" "Ana Lopez" "automatic"
    [mk_lg "verso" [mk_l "0" "3" "hola" ["ho|la"%string]]].

(** A line without its [met] attribute. *)
Definition doc_no_met : xml_file :=
  mk_doc "Sin metro" "Ana Lopez" "automatic"
    [mk_lg "verso"
       [Elem (Tag (TEI "l")) [(u "n", u "1")] None None
          [Elem (Tag (TEI "seg")) [] (Some (u "hola")) None []; mk_w "ho|la"]]].

(** A poem whose [author] element is empty, so its text is [None]. *)
Definition doc_anon : xml_file :=
  WellFormed
    (Elem (Tag (TEI "TEI")) [] None None
       [Elem (Tag (TEI "teiHeader")) [] None None
          [Elem (Tag (TEI "fileDesc")) [] None None
             [Elem (Tag (TEI "bibl")) [] None None
                [Elem (Tag (TEI "title")) [] (Some (u "Anonimo")) None [];
                 Elem (Tag (TEI "author")) [] None None []]];
           Elem (Tag (TEI "encodingDesc")) [] None None
             [Elem (Tag (TEI "metDecl")) [] None None
                [Elem (Tag (TEI "p")) [] (Some (u "automatic")) None []]]];
        Elem (Tag (TEI "text")) [] None None
          [mk_lg "verso" [mk_l "1" "3" "hola" ["ho|la"%string]]]]).

(** A poem by another author. *)
Definition doc_luis : xml_file :=
  mk_doc "Luz" "Luis Ruiz" "automatic"
    [mk_lg "verso" [mk_l "1" "2" "luz" ["luz"%string]]].

(** A test file system: the list of existing folders. *)
Definition TWorld := list pystr.

Definition tw_exists (w : TWorld) (f : pystr) : bool := in_list f w.

Definition tw_download_ok (link out_dir : pystr) (w : TWorld) : result TWorld :=
  Ok (slash out_dir (u "plsdo") :: w).

Definition tw_download_fail (link out_dir : pystr) (w : TWorld) : result TWorld :=
  Err URLError.

(** [rglob] under a missing folder finds nothing. *)
Definition tw_read (rd base : pystr) (w : TWorld) : result (list poem) :=
  if in_list base w then get_features [doc_rosa] else Ok [].

Definition tw_make_dirs (d : pystr) (w : TWorld) : result TWorld :=
  Ok (if in_list d w then w else d :: w).

Definition tw_write (v : value) (f : pystr) (w : TWorld) : result TWorld := Ok w.

Definition plsdo_corpus : corpus :=
  mkCorpus (u "Poesía Lírica Castellana Siglo de Oro") (u "plsdo")
    (u "https://example.org/plsdo.zip") (u "averell.readers.plsdo")
    [u "stanza"; u "line"; u "word"; u "syllable"].

Definition OUT : pystr := u "corpora".

(** The same corpus listing a granularity the reducer does not handle. *)
Definition verse_corpus : corpus :=
  mkCorpus (u "Poesía Lírica Castellana Siglo de Oro") (u "plsdo")
    (u "https://example.org/plsdo.zip") (u "averell.readers.plsdo")
    [u "stanza"; u "verse"].

(** The downloaded corpus folder, and the folder [get_corpora] writes the
    parsed poem of [doc_rosa] to. *)
Definition plsdo_dir : pystr := slash OUT (u "plsdo").

Definition ana_dir : pystr :=
  slash (slash (slash plsdo_dir (u "averell")) (u "parser")) (u "AnaLopez").

(** Where [get_corpora] would write the parsed poem of [doc_luis]. *)
Definition luis_dir : pystr :=
  slash (slash (slash plsdo_dir (u "averell")) (u "parser")) (u "LuisRuiz").

Definition rosa_poems : list poem :=
  match get_features [doc_rosa] with Ok ps => ps | Err _ => [] end.

(** The syllables of a list of words, each with the position of its word,
    counting from [k]: the [word_number] of [get_syllable_features]. *)
Fixpoint word_syllables_from (k : nat) (ws : list word) : list (nat * pystr) :=
  match ws with
  | [] => []
  | w :: ws' => map (fun x => (k, x)) (syllables w) ++ word_syllables_from (S k) ws'
  end.

Definition syllable_occurrences (p : poem) : list (nat * pystr) :=
  word_syllables_from 0 (flat_map words (all_lines p)).

(** A syllable row made from the syllable [snd kx] and the word row of
    [wrows] at position [fst kx]. *)
Definition syllable_row_of (wrows : list dict) (kx : nat * pystr) (r : dict) : Prop :=
  lookup r (u "syllable") = Some (VStr (snd kx)) /\
  forall k, str_eqb k (u "syllable") = false -> lookup r k = lookup (nth (fst kx) wrows []) k.

(** The root element of a well-formed file. *)
Definition root_of (f : xml_file) : element :=
  match f with WellFormed r => r | Malformed => mk_w "" end.

(** An XML comment inside a stanza: [CommentedTreeBuilder] keeps it as a
    child element of the [lg], with no attributes. *)
Definition doc_comment : xml_file :=
  mk_doc "Nota" "Ana Lopez" "automatic"
    [mk_lg "verso" [Elem CommentNode [] (Some (u " revisar ")) None [];
                    mk_l "1" "3" "hola" ["ho|la"%string]]].

(** A stanza of two lines, the second without [w] elements. *)
Definition doc_pair : xml_file :=
  mk_doc "Mar" "Ana Lopez" "checked manually"
    [mk_lg "pareado" [mk_l "1" "2|2" "Verde" ["Ver|de"%string];
                      mk_l "2" "1" "mar" []]].

(* ================================================================== *)
(** * Proofs *)

(** ** Generic facts *)

Lemma str_eqb_spec (a b : pystr) : str_eqb a b = true <-> a = b.
Proof.
  revert b; induction a as [|x a IH]; intros [|y b]; simpl; split; intro H;
    try discriminate; try reflexivity.
  - apply andb_prop in H as [H1 H2]. apply N.eqb_eq in H1.
    apply IH in H2. subst. reflexivity.
  - inversion H; subst. rewrite N.eqb_refl. simpl. apply IH. reflexivity.
Qed.

Lemma str_eqb_refl (a : pystr) : str_eqb a a = true.
Proof. apply str_eqb_spec. reflexivity. Qed.

Lemma str_eqb_sym (a b : pystr) : str_eqb a b = str_eqb b a.
Proof.
  destruct (str_eqb a b) eqn:E1; destruct (str_eqb b a) eqn:E2; auto.
  - apply str_eqb_spec in E1. subst. rewrite str_eqb_refl in E2. discriminate.
  - apply str_eqb_spec in E2. subst. rewrite str_eqb_refl in E1. discriminate.
Qed.

Lemma mapR_Forall2 {A B} (f : A -> result B) l l' :
  mapR f l = Ok l' <-> Forall2 (fun x y => f x = Ok y) l l'.
Proof.
  revert l'; induction l as [|x l IH]; intros l'; simpl.
  - split; intro H; [inversion H; constructor | inversion H; reflexivity].
  - split.
    + destruct (f x) eqn:Ef; simpl; [|discriminate].
      destruct (mapR f l) eqn:Em; simpl; [|discriminate].
      intro H; inversion H; subst. constructor; [assumption|]. apply IH. reflexivity.
    + intro H; inversion H; subst. rewrite H2. simpl.
      apply IH in H4. rewrite H4. reflexivity.
Qed.

Lemma mapR_ok_in {A B} (f : A -> result B) l l' y :
  mapR f l = Ok l' -> In y l' -> exists x, In x l /\ f x = Ok y.
Proof.
  intros H Hy. apply mapR_Forall2 in H. induction H as [|x y' l l'' Hf _ IH].
  - destruct Hy.
  - destruct Hy as [<-|Hy].
    + exists x. split; [left|]; auto.
    + destruct (IH Hy) as [x' [Hx' Hf']]. exists x'. split; [right|]; auto.
Qed.

Lemma mapR_err {A B} (f : A -> result B) l :
  (exists e, mapR f l = Err e) <-> exists x e, In x l /\ f x = Err e.
Proof.
  induction l as [|x l IH]; simpl.
  - split; [intros [e H]; discriminate | intros (x & e & [] & _)].
  - split.
    + intros [e H]. destruct (f x) eqn:Ef; simpl in H.
      * destruct (mapR f l) eqn:Em; simpl in H; [discriminate|].
        destruct IH as [IH _]. destruct IH as (x' & e' & Hin & Hx');
          [exists e0; reflexivity|].
        exists x', e'. split; [right|]; assumption.
      * exists x, e0. split; [left|]; auto.
    + intros (x' & e & [<-|Hin] & Hx').
      * rewrite Hx'. simpl. eauto.
      * destruct (f x) eqn:Ef; simpl; [|eauto].
        destruct IH as [_ IH]. destruct IH as [e' He'];
          [exists x', e; split; assumption|].
        rewrite He'. simpl. eauto.
Qed.

Lemma mapR_ok_or_err {A B} (f : A -> result B) l :
  (exists l', mapR f l = Ok l') \/ (exists e, mapR f l = Err e).
Proof. destruct (mapR f l); eauto. Qed.

Lemma py_index_ok {A} (l : list A) i x :
  py_index l i = Ok x -> In x l.
Proof.
  unfold py_index. destruct (_ && _); simpl; [|discriminate].
  destruct (nth_error l _) eqn:E; simpl; intro H; [|discriminate].
  inversion H; subst. eapply nth_error_In; eassumption.
Qed.

Lemma py_index_range {A} (l : list A) i :
  (exists x, py_index l i = Ok x) <->
  (- Z.of_nat (List.length l) <= i < Z.of_nat (List.length l))%Z.
Proof.
  unfold py_index.
  set (n := Z.of_nat (List.length l)).
  set (j := if (i <? 0)%Z then (i + n)%Z else i).
  assert (Hj : ((0 <=? j)%Z && (j <? n)%Z = true) <-> (- n <= i < n)%Z).
  { unfold j. rewrite andb_true_iff, Z.leb_le, Z.ltb_lt.
    destruct (Z.ltb_spec i 0); lia. }
  destruct (_ && _) eqn:E.
  - assert (Hr : (0 <= j < n)%Z) by (apply andb_prop in E as [E1 E2];
      apply Z.leb_le in E1; apply Z.ltb_lt in E2; lia).
    destruct (nth_error l (Z.to_nat j)) eqn:En.
    + simpl. split; [intros _; apply Hj; reflexivity | eauto].
    + apply nth_error_None in En. unfold n in Hr. lia.
  - split; [intros [x H]; discriminate | intro H; apply Hj in H; discriminate].
Qed.

Lemma py_index_nth {A} (l : list A) (i : nat) d :
  i < List.length l -> py_index l (Z.of_nat i) = Ok (nth i l d).
Proof.
  intro H. unfold py_index.
  replace (Z.of_nat i <? 0)%Z with false by (symmetry; apply Z.ltb_ge; lia).
  replace ((0 <=? Z.of_nat i)%Z && (Z.of_nat i <? Z.of_nat (List.length l))%Z)
    with true by (symmetry; apply andb_true_iff; split;
                  [apply Z.leb_le | apply Z.ltb_lt]; lia).
  rewrite Nat2Z.id. rewrite (nth_error_nth' l d H). reflexivity.
Qed.

(** ** C1: metrical-pattern normalisation *)

Lemma replace_pipe_app a b : replace_pipe (a ++ b) = replace_pipe a ++ replace_pipe b.
Proof. unfold replace_pipe. apply filter_app. Qed.

Lemma sub_digit_runs_from_app b a x :
  sub_digit_runs_from b (a ++ x) =
  sub_digit_runs_from b a ++ sub_digit_runs_from (flag_after b a) x.
Proof.
  revert b; induction a as [|c a IH]; intro b; simpl; [reflexivity|].
  destruct (is_digit c); [destruct b|]; simpl; rewrite IH; reflexivity.
Qed.

Lemma flag_after_last b a :
  flag_after b a = match rev a with [] => b | c :: _ => is_digit c end.
Proof.
  revert b; induction a as [|c a IH]; intro b; simpl; [reflexivity|].
  rewrite IH. destruct (rev a); reflexivity.
Qed.

Lemma sub_digit_runs_from_digits b d x :
  d <> [] -> forallb is_digit d = true ->
  sub_digit_runs_from b (d ++ x) =
  (if b then [] else [PLUS]) ++ sub_digit_runs_from true x.
Proof.
  revert b; induction d as [|c d IH]; intros b Hne Hd; [contradiction|].
  simpl in Hd |- *. apply andb_prop in Hd as [Hc Hd]. rewrite Hc.
  destruct d as [|c' d'].
  - destruct b; reflexivity.
  - rewrite IH by (discriminate || assumption). destruct b; reflexivity.
Qed.

Lemma sub_digit_runs_from_start x :
  starts_with_digit x = false ->
  sub_digit_runs_from true x = sub_digit_runs_from false x.
Proof. destruct x as [|c x]; simpl; [reflexivity|]. intro H; rewrite H; reflexivity. Qed.

Lemma replace_pipe_digits d : forallb is_digit d = true -> replace_pipe d = d.
Proof.
  induction d as [|c d IH]; simpl; [reflexivity|]. intro H.
  apply andb_prop in H as [Hc Hd].
  assert (Hp : N.eqb c PIPE = false).
  { apply N.eqb_neq. intro E. subst. discriminate. }
  rewrite Hp. simpl. rewrite IH; auto.
Qed.

Lemma sub_digit_runs_from_no_digit b s :
  forallb (fun c => negb (is_digit c)) s = true -> sub_digit_runs_from b s = s.
Proof.
  revert b; induction s as [|c s IH]; intro b; simpl; [reflexivity|].
  intro H. apply andb_prop in H as [Hc Hs]. apply negb_true_iff in Hc.
  rewrite Hc, IH; auto.
Qed.

Lemma sub_digit_runs_from_in b s x :
  In x (sub_digit_runs_from b s) -> x = PLUS \/ In x s.
Proof.
  revert b; induction s as [|c s IH]; intro b; simpl; [intros []|].
  destruct (is_digit c); [destruct b|]; simpl; intro H.
  - destruct (IH _ H); auto.
  - destruct H as [H|H]; [auto|]. destruct (IH _ H); auto.
  - destruct H as [H|H]; [auto|]. destruct (IH _ H); auto.
Qed.

Lemma metrical_pattern_digit_block a d b :
  d <> [] -> forallb is_digit d = true ->
  ends_with_digit (replace_pipe a) = false ->
  starts_with_digit (replace_pipe b) = false ->
  metrical_pattern_of (a ++ d ++ b) =
  metrical_pattern_of a ++ [PLUS] ++ metrical_pattern_of b.
Proof.
  intros Hne Hd Ha Hb. unfold metrical_pattern_of, sub_digit_runs.
  rewrite !replace_pipe_app, (replace_pipe_digits d Hd).
  rewrite sub_digit_runs_from_app, flag_after_last.
  unfold ends_with_digit in Ha.
  replace (match rev (replace_pipe a) with [] => false | c :: _ => is_digit c end)
    with false by (destruct (rev (replace_pipe a)); auto).
  rewrite sub_digit_runs_from_digits by assumption.
  rewrite sub_digit_runs_from_start by assumption. reflexivity.
Qed.

Lemma replace_pipe_digits_or_pipes d :
  forallb (fun c => is_digit c || N.eqb c PIPE) d = true ->
  forallb is_digit (replace_pipe d) = true.
Proof.
  induction d as [|c d IH]; simpl; [reflexivity|]. intro H.
  apply andb_prop in H as [Hc Hd].
  destruct (N.eqb c PIPE) eqn:Ep; simpl.
  - exact (IH Hd).
  - rewrite orb_false_r in Hc. rewrite Hc. exact (IH Hd).
Qed.

Lemma replace_pipe_idem d : replace_pipe (replace_pipe d) = replace_pipe d.
Proof.
  induction d as [|c d IH]; [reflexivity|]. unfold replace_pipe in *. simpl.
  destruct (N.eqb c PIPE) eqn:E; simpl; [exact IH|]. rewrite E. simpl. rewrite IH. reflexivity.
Qed.

(** C1 (amended). The normaliser deletes every pipe first and only then
    replaces each maximal run of digits of the pipe-free string by one
    ['+']; other characters are kept. Deleting any pipe of the input
    changes nothing, and a block of digits and pipes holding at least one
    digit, whose pipe-free neighbours touch no digit, becomes a single
    ['+']: digit runs separated only by pipes merge, ["2|3"] gives ["+"]. *)
Theorem C1_metrical_pattern_pipes_then_runs :
  (forall s, ~ In PIPE (metrical_pattern_of s)) /\
  (forall s, forallb (fun c => negb (is_digit c)) s = true ->
             metrical_pattern_of s = replace_pipe s) /\
  (forall a d b, d <> [] -> forallb is_digit d = true ->
     ends_with_digit (replace_pipe a) = false ->
     starts_with_digit (replace_pipe b) = false ->
     metrical_pattern_of (a ++ d ++ b) =
     metrical_pattern_of a ++ [PLUS] ++ metrical_pattern_of b) /\
  (forall a b, metrical_pattern_of (a ++ PIPE :: b) = metrical_pattern_of (a ++ b)) /\
  (forall a d b, forallb (fun c => is_digit c || N.eqb c PIPE) d = true ->
     replace_pipe d <> [] ->
     ends_with_digit (replace_pipe a) = false ->
     starts_with_digit (replace_pipe b) = false ->
     metrical_pattern_of (a ++ d ++ b) =
     metrical_pattern_of a ++ [PLUS] ++ metrical_pattern_of b) /\
  metrical_pattern_of (u "2|3") = u "+".
Proof.
  split; [|split; [|split; [|split; [|split]]]].
  - intros s H. unfold metrical_pattern_of, sub_digit_runs in H.
    apply sub_digit_runs_from_in in H as [H|H]; [discriminate|].
    unfold replace_pipe in H. apply filter_In in H as [_ H].
    rewrite N.eqb_refl in H. discriminate.
  - intros s H. unfold metrical_pattern_of, sub_digit_runs.
    apply sub_digit_runs_from_no_digit.
    unfold replace_pipe. apply forallb_forall. intros c Hc.
    apply filter_In in Hc as [Hc _]. rewrite forallb_forall in H. auto.
  - exact metrical_pattern_digit_block.
  - intros a b. unfold metrical_pattern_of.
    rewrite !replace_pipe_app. reflexivity.
  - intros a d b Hd Hne Ha Hb.
    assert (E : metrical_pattern_of (a ++ d ++ b) =
                metrical_pattern_of (a ++ replace_pipe d ++ b)).
    { unfold metrical_pattern_of. rewrite !replace_pipe_app, replace_pipe_idem. reflexivity. }
    rewrite E. apply metrical_pattern_digit_block; try assumption.
    exact (replace_pipe_digits_or_pipes d Hd).
  - reflexivity.
Qed.

(** C1 fails as stated: ["2|3"] normalises to ["+"], not ["++"]. *)
Lemma C1_counterexample :
  metrical_pattern_of (u "2|3") = u "+" /\ metrical_pattern_of (u "2|3") <> u "++".
Proof. split; [reflexivity | discriminate]. Qed.

(** ** The reader: C2, C6, C9 *)

Ltac ok_step H :=
  match type of H with
  | bind ?m _ = Ok _ =>
      let E := fresh "E" in destruct m eqn:E; simpl in H; [|discriminate]
  end.

Lemma enum_mapR_ok_in {A B} (f : nat -> A -> result B) i l l' y :
  enum_mapR f i l = Ok l' -> In y l' -> exists j x, In x l /\ f j x = Ok y.
Proof.
  revert i l'; induction l as [|x l IH]; intros i l' H Hy; simpl in H.
  - inversion H; subst. destruct Hy.
  - ok_step H. ok_step H. inversion H; subst. destruct Hy as [<-|Hy].
    + exists i, x. split; [left; reflexivity | assumption].
    + destruct (IH _ _ E0 Hy) as (j & x' & Hx' & Hf).
      exists j, x'. split; [right|]; assumption.
Qed.

Lemma parse_word_shape e w :
  parse_word e = Ok w ->
  exists t c, el_text e = Some t /\ py_index t (-1) = Ok c /\
    syllables w = filter (fun s => negb (str_eqb s [])) (py_split PIPE t) /\
    word_text w = List.concat (syllables w) /\
    has_synalepha w = is_synalepha_vowel c.
Proof.
  unfold parse_word. intro H.
  destruct (el_text e) as [t|] eqn:Et; simpl in H; [|discriminate].
  destruct (py_index t (-1)) as [c|] eqn:Ec; simpl in H; [|discriminate].
  inversion H; subst. exists t, c. simpl. auto.
Qed.

(** Every word of a parsed poem comes from [parse_word]. *)
Lemma parse_xml_words f p s l w :
  parse_xml f = Ok p -> In s (stanzas p) -> In l (lines s) -> In w (words l) ->
  exists e, parse_word e = Ok w.
Proof.
  destruct f as [root|]; simpl; [|discriminate]. intro H.
  do 4 ok_step H. inversion H; subst; clear H. simpl.
  intros Hs Hl Hw.
  destruct (enum_mapR_ok_in _ _ _ _ _ E2 Hs) as (i & lg & _ & Hst).
  unfold parse_stanza in Hst. do 3 ok_step Hst. inversion Hst; subst; clear Hst.
  simpl in Hl. apply in_map_iff in Hl as [[lp t] [Heq Hin]]. subst l. simpl in Hw.
  apply in_combine_l in Hin.
  destruct (mapR_ok_in _ _ _ _ E4 Hin) as (el & _ & Hpl).
  unfold parse_line in Hpl. do 4 ok_step Hpl. inversion Hpl; subst; clear Hpl.
  simpl in Hw. destruct (mapR_ok_in _ _ _ _ E8 Hw) as (e & _ & He). eauto.
Qed.

(** C9. Every word record produced by the reader has as [word_text] the
    concatenation of its [syllables], in order. *)
Theorem C9_word_text_is_syllable_join (f : xml_file) (p : poem) :
  parse_xml f = Ok p ->
  forall s l w, In s (stanzas p) -> In l (lines s) -> In w (words l) ->
  word_text w = List.concat (syllables w).
Proof.
  intros H s l w Hs Hl Hw.
  destruct (parse_xml_words _ _ _ _ _ H Hs Hl Hw) as [e He].
  destruct (parse_word_shape _ _ He) as (t & c & _ & _ & _ & Ht & _). exact Ht.
Qed.

Lemma C9_witness :
  exists p, parse_xml doc_rosa = Ok p /\
  forall s l w, In s (stanzas p) -> In l (lines s) -> In w (words l) ->
  word_text w = List.concat (syllables w).
Proof.
  destruct (parse_xml doc_rosa) as [p|e] eqn:E; [|discriminate].
  exists p. split; [reflexivity|]. exact (C9_word_text_is_syllable_join doc_rosa p E).
Defined.

(** C2 (code defect). The synalepha test reads the last character of the
    raw [w] text, before the boundary markers are dropped. For the word
    marked up as ["ro|sa|"] the reader gives [word_text] ["rosa"], whose
    last character ['a'] is in the vowel set, yet the word record has no
    [has_synalepha] key. *)
Theorem C2_trailing_marker_hides_synalepha :
  exists p l w,
    parse_xml doc_rosa = Ok p /\ In l (all_lines p) /\ In w (words l) /\
    word_text w = u "rosa" /\
    is_synalepha_vowel (last (word_text w) 0%N) = true /\
    lookup (word_dict w) (u "has_synalepha") = None.
Proof.
  destruct (parse_xml doc_rosa) as [p|e] eqn:E; [|discriminate].
  vm_compute in E. injection E as <-.
  do 3 eexists. split; [reflexivity|]. split; [left; reflexivity|].
  split; [right; right; left; reflexivity|].
  split; [reflexivity|]. split; reflexivity.
Qed.

(** C6 (amended). A document that fails to parse aborts [get_features]
    for the whole directory: the documents before it parse, the call
    raises that document's exception, and no poem record is returned. *)
Theorem C6_first_failure_aborts_directory (pre post : list xml_file)
  (f : xml_file) (e : exn) :
  (forall g, In g pre -> exists p, parse_xml g = Ok p) ->
  parse_xml f = Err e ->
  get_features (pre ++ f :: post) = Err e.
Proof.
  unfold get_features. induction pre as [|g pre IH]; intros Hpre Hf; simpl.
  - rewrite Hf. reflexivity.
  - destruct (Hpre g (or_introl eq_refl)) as [p Hp]. rewrite Hp. simpl.
    rewrite IH; [reflexivity | | exact Hf].
    intros g' Hg'. apply Hpre. right. exact Hg'.
Qed.

Lemma C6_witness :
  (forall g, In g [doc_rosa] -> exists p, parse_xml g = Ok p) /\
  parse_xml doc_no_met = Err KeyError /\
  get_features ([doc_rosa] ++ doc_no_met :: [doc_zero]) = Err KeyError.
Proof.
  assert (H1 : forall g, In g [doc_rosa] -> exists p, parse_xml g = Ok p).
  { intros g [<-|[]]. destruct (parse_xml doc_rosa) as [p|e] eqn:E;
      [exists p; reflexivity | discriminate]. }
  assert (H2 : parse_xml doc_no_met = Err KeyError) by reflexivity.
  split; [exact H1|]. split; [exact H2|].
  exact (C6_first_failure_aborts_directory [doc_rosa] [doc_zero] doc_no_met KeyError H1 H2).
Defined.

(** C6 fails as stated: a directory holding a document without a [met]
    attribute next to a good one yields no poem at all. *)
Lemma C6_counterexample :
  (exists p, parse_xml doc_rosa = Ok p) /\
  get_features [doc_no_met; doc_rosa] = Err KeyError.
Proof.
  split; [|reflexivity].
  destruct (parse_xml doc_rosa) as [p|e] eqn:E; [exists p; reflexivity | discriminate].
Qed.

(** ** Dicts *)

Definition keys (d : dict) : list pystr := map fst d.

Lemma nodupb_NoDup l : nodupb l = true -> NoDup l.
Proof.
  induction l as [|x l IH]; simpl; intro H; constructor.
  - apply andb_prop in H as [H _]. apply negb_true_iff in H.
    intro Hin. assert (existsb (str_eqb x) l = true) as Hc.
    { apply existsb_exists. exists x. split; [assumption | apply str_eqb_refl]. }
    congruence.
  - apply andb_prop in H as [_ H]. auto.
Qed.

Lemma lookup_not_in d k : ~ In k (keys d) -> lookup d k = None.
Proof.
  induction d as [|[k' v] d IH]; simpl; intro H; [reflexivity|].
  destruct (str_eqb k' k) eqn:E.
  - apply str_eqb_spec in E. subst. exfalso. auto.
  - apply IH. auto.
Qed.

Lemma lookup_dict_set d k v k' :
  lookup (dict_set d k v) k' = if str_eqb k k' then Some v else lookup d k'.
Proof.
  induction d as [|[k0 v0] d IH]; simpl.
  - reflexivity.
  - destruct (str_eqb k0 k) eqn:E0.
    + apply str_eqb_spec in E0. subst k0. simpl.
      destruct (str_eqb k k'); reflexivity.
    + simpl. rewrite IH. destruct (str_eqb k0 k') eqn:E1; [|reflexivity].
      apply str_eqb_spec in E1. subst k'.
      rewrite str_eqb_sym, E0. reflexivity.
Qed.

Lemma keys_dict_set d k v x :
  In x (keys (dict_set d k v)) <-> x = k \/ In x (keys d).
Proof.
  induction d as [|[k0 v0] d IH]; simpl.
  - intuition.
  - destruct (str_eqb k0 k) eqn:E0.
    + apply str_eqb_spec in E0. subst k0. simpl. intuition.
    + simpl. rewrite IH. intuition.
Qed.

Lemma NoDup_dict_set d k v : NoDup (keys d) -> NoDup (keys (dict_set d k v)).
Proof.
  induction d as [|[k0 v0] d IH]; simpl; intro H.
  - constructor; [intros []| constructor].
  - inversion H as [|? ? Hn Hd]; subst.
    destruct (str_eqb k0 k) eqn:E0.
    + apply str_eqb_spec in E0. subst k0. simpl. constructor; assumption.
    + simpl. constructor; [|auto].
      rewrite keys_dict_set. intros [Hk|Hk]; [|auto].
      subst. rewrite str_eqb_refl in E0. discriminate.
Qed.

Lemma NoDup_dict_update d1 d2 : NoDup (keys d1) -> NoDup (keys (dict_update d1 d2)).
Proof.
  revert d1; induction d2 as [|[k v] d2 IH]; intros d1 H; simpl; [assumption|].
  apply IH. apply NoDup_dict_set. assumption.
Qed.

Lemma NoDup_merge a b : NoDup (keys (merge a b)).
Proof. unfold merge. apply NoDup_dict_update, NoDup_dict_update. constructor. Qed.

Lemma lookup_dict_update d1 d2 k :
  NoDup (keys d2) ->
  lookup (dict_update d1 d2) k =
  match lookup d2 k with Some v => Some v | None => lookup d1 k end.
Proof.
  revert d1; induction d2 as [|[k0 v0] d2 IH]; intros d1 H; simpl; [reflexivity|].
  inversion H as [|? ? Hn Hd]; subst.
  rewrite IH by assumption. rewrite lookup_dict_set.
  destruct (str_eqb k0 k) eqn:E.
  - apply str_eqb_spec in E. subst. rewrite lookup_not_in by assumption. reflexivity.
  - reflexivity.
Qed.

Lemma lookup_dict_update_none d1 d2 k :
  lookup d2 k = None -> lookup (dict_update d1 d2) k = lookup d1 k.
Proof.
  revert d1; induction d2 as [|[k0 v0] d2 IH]; intros d1 H; simpl in *; [reflexivity|].
  destruct (str_eqb k0 k) eqn:E; [discriminate|].
  rewrite IH by assumption. rewrite lookup_dict_set, E. reflexivity.
Qed.

Lemma lookup_filter_key d k0 k :
  lookup (filter (fun kv => negb (str_eqb (fst kv) k0)) d) k =
  if str_eqb k0 k then None else lookup d k.
Proof.
  induction d as [|[k1 v1] d IH]; simpl.
  - destruct (str_eqb k0 k); reflexivity.
  - destruct (str_eqb k1 k0) eqn:E1; simpl.
    + apply str_eqb_spec in E1. subst k1. rewrite IH.
      destruct (str_eqb k0 k); reflexivity.
    + rewrite IH. destruct (str_eqb k1 k) eqn:E2; [|reflexivity].
      apply str_eqb_spec in E2. subst k. rewrite str_eqb_sym, E1. reflexivity.
Qed.

Lemma NoDup_filter_keys (P : pystr * value -> bool) d :
  NoDup (keys d) -> NoDup (keys (filter P d)).
Proof.
  induction d as [|[k v] d IH]; simpl; intro H; [constructor|].
  inversion H as [|? ? Hn Hd]; subst.
  destruct (P (k, v)); simpl; [constructor|]; auto.
  intro Hin. apply Hn. unfold keys in Hin. apply in_map_iff in Hin as [[k' v'] [Heq Hin]].
  simpl in Heq. apply filter_In in Hin as [Hin _].
  apply in_map_iff. exists (k', v'). split; assumption.
Qed.

(** ** Rows of the reducer *)

Lemma stanza_row_nodup p s : NoDup (keys (stanza_row p s)).
Proof. apply nodupb_NoDup. reflexivity. Qed.

Lemma line_row_shape p r :
  In r (get_line_features p) ->
  exists s l, In s (stanzas p) /\ In l (lines s) /\
              r = merge (line_features l) (stanza_row p s).
Proof.
  unfold get_line_features. intro H. apply in_flat_map in H as [s [Hs H]].
  apply in_map_iff in H as [l [<- Hl]]. eauto.
Qed.

Lemma lookup_line_row p s l k v :
  lookup (stanza_row p s) k = Some v ->
  lookup (merge (line_features l) (stanza_row p s)) k = Some v.
Proof.
  intro H. unfold merge. rewrite lookup_dict_update by apply stanza_row_nodup.
  rewrite H. reflexivity.
Qed.

Lemma line_features_no_word_text l : lookup (line_features l) (u "word_text") = None.
Proof. unfold line_features. destruct (words l); reflexivity. Qed.

Lemma line_row_word_text p r :
  In r (get_line_features p) -> lookup r (u "word_text") = None.
Proof.
  intro H. destruct (line_row_shape _ _ H) as (s & l & _ & _ & ->).
  unfold merge. rewrite lookup_dict_update_none by reflexivity.
  rewrite lookup_dict_update_none by apply line_features_no_word_text. reflexivity.
Qed.

Lemma line_row_stanza_text p r :
  In r (get_line_features p) -> exists v, lookup r (u "stanza_text") = Some v.
Proof.
  intro H. destruct (line_row_shape _ _ H) as (s & l & _ & _ & ->).
  eexists. apply lookup_line_row. reflexivity.
Qed.

Lemma line_row_nodup p r : In r (get_line_features p) -> NoDup (keys r).
Proof.
  intro H. destruct (line_row_shape _ _ H) as (s & l & _ & _ & ->). apply NoDup_merge.
Qed.

Lemma mapR_exists {A B} (f : A -> result B) (Q : A -> B -> Prop) l :
  (forall x, In x l -> exists y, f x = Ok y /\ Q x y) ->
  exists l', mapR f l = Ok l' /\ Forall2 Q l l'.
Proof.
  induction l as [|x l IH]; intro H; simpl.
  - exists []. split; [reflexivity | constructor].
  - destruct (H x (or_introl eq_refl)) as [y [Hy HQ]]. rewrite Hy. simpl.
    destruct IH as [l' [Hl' HQ']]; [intros x' Hx'; apply H; right; exact Hx'|].
    rewrite Hl'. simpl. exists (y :: l'). split; [reflexivity | constructor; assumption].
Qed.

Lemma Forall2_flatten {X Y Z'} (g : X -> list Y) (R : X -> Y -> Z' -> Prop) xs yss :
  Forall2 (fun x ys => Forall2 (R x) (g x) ys) xs yss ->
  Forall2 (fun xy r => R (fst xy) (snd xy) r)
          (flat_map (fun x => map (fun y => (x, y)) (g x)) xs) (List.concat yss).
Proof.
  induction 1 as [|x ys xs yss Hx _ IH]; simpl; [constructor|].
  apply Forall2_app; [|exact IH].
  clear IH. induction Hx; simpl; constructor; assumption.
Qed.

(** One word row: [word_text] added, [stanza_text] dropped, everything
    else read from the line row [lf] the index selects. *)
Lemma word_row_ok p n w lf :
  py_index (get_line_features p) (n - 1) = Ok lf ->
  exists r, word_row (get_line_features p) n w = Ok r /\
    NoDup (keys r) /\
    forall k, lookup r k =
      if str_eqb k (u "word_text") then Some (VStr (word_text w))
      else if str_eqb k (u "stanza_text") then None else lookup lf k.
Proof.
  intro Hlf. pose proof (py_index_ok _ _ _ Hlf) as Hin.
  pose proof (line_row_nodup _ _ Hin) as Hnd.
  destruct (line_row_stanza_text _ _ Hin) as [vs Hvs].
  pose proof (line_row_word_text _ _ Hin) as Hwt.
  unfold word_row. rewrite Hlf. simpl. unfold dict_pop.
  rewrite lookup_dict_update, Hvs by exact Hnd.
  eexists. split; [reflexivity|]. split.
  { apply NoDup_filter_keys, NoDup_dict_update. constructor; [intros []|constructor]. }
  intro k. rewrite lookup_filter_key, lookup_dict_update by exact Hnd.
  destruct (str_eqb (u "stanza_text") k) eqn:Est.
  - apply str_eqb_spec in Est. subst k. reflexivity.
  - rewrite (str_eqb_sym k (u "stanza_text")), Est.
    destruct (str_eqb k (u "word_text")) eqn:Ewt.
    + apply str_eqb_spec in Ewt. subst k. rewrite Hwt. reflexivity.
    + destruct (lookup lf k); [reflexivity|]. cbn [lookup].
      rewrite str_eqb_sym, Ewt. reflexivity.
Qed.

(** C3. Under the precondition that every line number parses to an
    integer in [[1, number of line rows]], the word reduction returns one
    row per word, in document order; the row of a word of line [l] is the
    line row at position [int(line_number l) - 1] of the poem's line rows,
    with [stanza_text] removed and [word_text] added. *)
Theorem C3_word_rows_link_by_line_number (py_int : pystr -> option Z) (p : poem) :
  (forall l, In l (all_lines p) -> exists z, py_int (line_number l) = Some z /\
      (1 <= z <= Z.of_nat (List.length (get_line_features p)))%Z) ->
  exists rows, get_word_features py_int p = Ok rows /\
    Forall2 (fun lw r => exists z, py_int (line_number (fst lw)) = Some z /\
        forall k, lookup r k =
          if str_eqb k (u "word_text") then Some (VStr (word_text (snd lw)))
          else if str_eqb k (u "stanza_text") then None
          else lookup (nth (Z.to_nat (z - 1)) (get_line_features p) []) k)
      (word_occurrences p) rows.
Proof.
  intro H. unfold get_word_features, word_occurrences.
  set (R := fun l w r => exists z, py_int (line_number l) = Some z /\
        forall k, lookup r k =
          if str_eqb k (u "word_text") then Some (VStr (word_text w))
          else if str_eqb k (u "stanza_text") then None
          else lookup (nth (Z.to_nat (z - 1)) (get_line_features p) []) k).
  cbv zeta.
  destruct (mapR_exists
              (fun l => let* n := of_option ValueError (py_int (line_number l)) in
                        mapR (word_row (get_line_features p) n) (words l))
              (fun l rs => Forall2 (R l) (words l) rs) (all_lines p))
    as [rowss [Hm HF]].
  - intros l Hl. destruct (H l Hl) as [z [Hz Hr]]. rewrite Hz. simpl.
    assert (Hi : py_index (get_line_features p) (z - 1) =
                 Ok (nth (Z.to_nat (z - 1)) (get_line_features p) [])).
    { replace (z - 1)%Z with (Z.of_nat (Z.to_nat (z - 1))) at 1 by lia.
      apply py_index_nth. lia. }
    apply mapR_exists. intros w _.
    destruct (word_row_ok p z w _ Hi) as [r [Hr' [_ Hk]]].
    exists r. split; [exact Hr'|]. exists z. split; assumption.
  - rewrite Hm. simpl. eexists. split; [reflexivity|].
    apply (Forall2_flatten words R). exact HF.
Qed.

Lemma C3_witness :
  exists p, parse_xml doc_rosa = Ok p /\
  (forall l, In l (all_lines p) -> exists z, int_ascii (line_number l) = Some z /\
      (1 <= z <= Z.of_nat (List.length (get_line_features p)))%Z) /\
  exists rows, get_word_features int_ascii p = Ok rows /\
    Forall2 (fun lw r => exists z, int_ascii (line_number (fst lw)) = Some z /\
        forall k, lookup r k =
          if str_eqb k (u "word_text") then Some (VStr (word_text (snd lw)))
          else if str_eqb k (u "stanza_text") then None
          else lookup (nth (Z.to_nat (z - 1)) (get_line_features p) []) k)
      (word_occurrences p) rows.
Proof.
  destruct (parse_xml doc_rosa) as [p|e] eqn:E; [|discriminate].
  assert (Hpre : forall l, In l (all_lines p) -> exists z,
            int_ascii (line_number l) = Some z /\
            (1 <= z <= Z.of_nat (List.length (get_line_features p)))%Z).
  { vm_compute in E. injection E as <-.
    intros l Hl. simpl in Hl. destruct Hl as [<-|[<-|[]]].
    - exists 1%Z. split; [reflexivity|]. simpl. lia.
    - exists 2%Z. split; [reflexivity|]. simpl. lia. }
  exists p. split; [reflexivity|]. split; [exact Hpre|].
  exact (C3_word_rows_link_by_line_number int_ascii p Hpre).
Defined.

Lemma word_rows_from_line_rows py_int p rows r :
  get_word_features py_int p = Ok rows -> In r rows ->
  NoDup (keys r) /\
  exists lf, In lf (get_line_features p) /\
    forall k, str_eqb k (u "word_text") = false ->
              str_eqb k (u "stanza_text") = false -> lookup r k = lookup lf k.
Proof.
  unfold get_word_features. cbv zeta. intro H.
  destruct (mapR _ (all_lines p)) as [rowss|e] eqn:Hm; simpl in H; [|discriminate].
  injection H as <-. intro Hr. apply in_concat in Hr as [rs [Hrs Hr]].
  destruct (mapR_ok_in _ _ _ _ Hm Hrs) as (l & _ & Hl).
  destruct (py_int (line_number l)) as [n|]; simpl in Hl; [|discriminate].
  destruct (mapR_ok_in _ _ _ _ Hl Hr) as (w & _ & Hw).
  destruct (py_index (get_line_features p) (n - 1)) as [lf|e] eqn:Hi.
  - destruct (word_row_ok p n w lf Hi) as (r' & Hr' & Hnd & Hk).
    rewrite Hw in Hr'. injection Hr' as <-. split; [exact Hnd|].
    exists lf. split; [exact (py_index_ok _ _ _ Hi)|].
    intros k H1 H2. rewrite Hk, H1, H2. reflexivity.
  - unfold word_row in Hw. rewrite Hi in Hw. discriminate.
Qed.

Lemma syllables_of_words_from wrows n k ws rs k' r :
  syllables_of_words wrows n k ws = Ok (rs, k') -> In r rs ->
  exists sf wf, In wf wrows /\ r = dict_update sf wf.
Proof.
  revert k rs k'; induction ws as [|w ws IH]; intros k rs k' H Hr; simpl in H.
  - injection H as <- <-. destruct Hr.
  - destruct (syllable_rows wrows n k w) as [rs1|] eqn:E1; simpl in H; [|discriminate].
    destruct (syllables_of_words wrows n (S k) ws) as [[rs2 k2]|] eqn:E2;
      simpl in H; [|discriminate].
    injection H as <- <-. apply in_app_or in Hr as [Hr|Hr].
    + unfold syllable_rows in E1. destruct (mapR_ok_in _ _ _ _ E1 Hr) as (s & _ & Hs).
      destruct (py_index wrows (Z.of_nat k)) as [wf|] eqn:Ei; simpl in Hs; [|discriminate].
      injection Hs as <-. do 2 eexists. split; [exact (py_index_ok _ _ _ Ei) | reflexivity].
    + exact (IH _ _ _ E2 Hr).
Qed.

Lemma syllables_of_lines_from py_int wrows k ls rows r :
  syllables_of_lines py_int wrows k ls = Ok rows -> In r rows ->
  exists sf wf, In wf wrows /\ r = dict_update sf wf.
Proof.
  revert k rows; induction ls as [|l ls IH]; intros k rows H Hr; simpl in H.
  - injection H as <-. destruct Hr.
  - destruct (py_int (line_number l)) as [n|]; simpl in H; [|discriminate].
    destruct (syllables_of_words wrows n k (words l)) as [[rs k']|] eqn:E1;
      simpl in H; [|discriminate].
    destruct (syllables_of_lines py_int wrows k' ls) as [rest|] eqn:E2;
      simpl in H; [|discriminate].
    injection H as <-. apply in_app_or in Hr as [Hr|Hr].
    + exact (syllables_of_words_from _ _ _ _ _ _ _ E1 Hr).
    + exact (IH _ _ E2 Hr).
Qed.

(** Every row of every granularity agrees with the row of its stanza on
    the keys other than [stanza_text] and [word_text]. *)
Lemma reduce_rows_agree_with_stanza py_int g p rows r :
  reduce py_int g p = Ok rows -> In r rows ->
  exists s, In s (stanzas p) /\
    forall k v, str_eqb k (u "word_text") = false ->
                str_eqb k (u "stanza_text") = false ->
                lookup (stanza_row p s) k = Some v -> lookup r k = Some v.
Proof.
  assert (Hline : forall r, In r (get_line_features p) ->
            exists s, In s (stanzas p) /\ forall k v,
              lookup (stanza_row p s) k = Some v -> lookup r k = Some v).
  { intros r0 H0. destruct (line_row_shape _ _ H0) as (s & l & Hs & _ & ->).
    exists s. split; [exact Hs|]. intros k v. apply lookup_line_row. }
  assert (Hword : forall rows r, get_word_features py_int p = Ok rows -> In r rows ->
            NoDup (keys r) /\ exists s, In s (stanzas p) /\
            forall k v, str_eqb k (u "word_text") = false ->
              str_eqb k (u "stanza_text") = false ->
              lookup (stanza_row p s) k = Some v -> lookup r k = Some v).
  { intros rows0 r0 H0 Hr0.
    destruct (word_rows_from_line_rows _ _ _ _ H0 Hr0) as [Hnd (lf & Hlf & Hk)].
    split; [exact Hnd|]. destruct (Hline lf Hlf) as (s & Hs & Hs').
    exists s. split; [exact Hs|]. intros k v H1 H2 H3. rewrite Hk by assumption. auto. }
  unfold reduce.
  destruct (str_eqb g (u "stanza")).
  { intro H. injection H as <-. intro Hr. unfold get_stanza_features in Hr.
    apply in_map_iff in Hr as [s [<- Hs]]. exists s. split; [exact Hs|]. auto. }
  destruct (str_eqb g (u "line")).
  { intro H. injection H as <-. intro Hr. destruct (Hline r Hr) as (s & Hs & H').
    exists s. split; [exact Hs|]. auto. }
  destruct (str_eqb g (u "word")).
  { intros H Hr. exact (proj2 (Hword _ _ H Hr)). }
  destruct (str_eqb g (u "syllable")).
  { unfold get_syllable_features. intro H.
    destruct (get_word_features py_int p) as [wrows|] eqn:Hw; simpl in H; [|discriminate].
    intro Hr. destruct (syllables_of_lines_from _ _ _ _ _ _ H Hr) as (sf & wf & Hwf & ->).
    destruct (Hword _ _ eq_refl Hwf) as [Hnd (s & Hs & H')].
    exists s. split; [exact Hs|]. intros k v H1 H2 H3.
    rewrite lookup_dict_update by exact Hnd. rewrite (H' k v H1 H2 H3). reflexivity. }
  intro H. injection H as <-. intros [].
Qed.

(** C4. At every granularity, every row the reducer produces carries the
    poem's [author], [poem_title] and [manually_checked] unchanged. *)
Theorem C4_rows_carry_poem_context (py_int : pystr -> option Z) (g : pystr)
  (p : poem) (rows : list dict) :
  reduce py_int g p = Ok rows ->
  forall r, In r rows ->
    lookup r (u "author") = Some (opt_str (author p)) /\
    lookup r (u "poem_title") = Some (opt_str (poem_title p)) /\
    lookup r (u "manually_checked") = Some (VBool (manually_checked p)).
Proof.
  intros H r Hr. destruct (reduce_rows_agree_with_stanza _ _ _ _ _ H Hr) as (s & _ & Hs).
  split; [|split]; apply Hs; reflexivity.
Qed.

Lemma C4_witness :
  exists p rows, parse_xml doc_rosa = Ok p /\
    reduce int_ascii (u "syllable") p = Ok rows /\
    forall r, In r rows ->
      lookup r (u "author") = Some (opt_str (author p)) /\
      lookup r (u "poem_title") = Some (opt_str (poem_title p)) /\
      lookup r (u "manually_checked") = Some (VBool (manually_checked p)).
Proof.
  destruct (parse_xml doc_rosa) as [p|e] eqn:E; [|discriminate].
  destruct (reduce int_ascii (u "syllable") p) as [rows|e] eqn:Er.
  - exists p, rows. split; [reflexivity|]. split; [exact Er|].
    exact (C4_rows_carry_poem_context int_ascii (u "syllable") p rows Er).
  - vm_compute in E. injection E as <-. vm_compute in Er. discriminate.
Defined.

(** ** C10: when the word and syllable reductions fail *)

Lemma word_row_err_iff p z w :
  (exists e, word_row (get_line_features p) z w = Err e) <->
  ~ (1 - Z.of_nat (List.length (get_line_features p)) <= z <=
     Z.of_nat (List.length (get_line_features p)))%Z.
Proof.
  pose proof (py_index_range (get_line_features p) (z - 1)) as Hr.
  destruct (py_index (get_line_features p) (z - 1)) as [lf|e] eqn:Hi.
  - destruct (word_row_ok p z w lf Hi) as (r & Hw & _). rewrite Hw.
    assert (Hb : (- Z.of_nat (List.length (get_line_features p)) <= z - 1 <
                  Z.of_nat (List.length (get_line_features p)))%Z)
      by (apply Hr; eauto).
    split; [intros [e H]; discriminate | intro H; exfalso; apply H; lia].
  - unfold word_row. rewrite Hi. split; [intros _ H | intros _; exists e; reflexivity].
    destruct Hr as [_ Hr]. destruct Hr as [x Hx]; [lia | discriminate].
Qed.

Lemma syllable_rows_ok wrows n k w :
  k < List.length wrows -> exists rs, syllable_rows wrows n k w = Ok rs.
Proof.
  intro Hk. unfold syllable_rows. rewrite (py_index_nth wrows k [] Hk). simpl.
  destruct (mapR_exists (fun s => Ok (dict_update [(u "syllable", VStr s);
                                                   (u "line_number", VInt n)]
                                                  (nth k wrows [])))
                        (fun _ _ => True) (syllables w)) as [rs [Hrs _]].
  - intros s _. eauto.
  - exists rs. exact Hrs.
Qed.

Lemma syllables_of_words_ok wrows n ws k :
  k + List.length ws <= List.length wrows ->
  exists rs, syllables_of_words wrows n k ws = Ok (rs, k + List.length ws).
Proof.
  revert k; induction ws as [|w ws IH]; intros k Hk; simpl.
  - rewrite Nat.add_0_r. eauto.
  - simpl in Hk. destruct (syllable_rows_ok wrows n k w) as [rs1 E1]; [lia|].
    rewrite E1. simpl. destruct (IH (S k)) as [rs2 E2]; [lia|].
    rewrite E2. simpl. rewrite Nat.add_succ_r. eauto.
Qed.

Lemma syllables_of_lines_ok py_int wrows ls k :
  (forall l, In l ls -> exists n, py_int (line_number l) = Some n) ->
  k + List.length (flat_map words ls) <= List.length wrows ->
  exists rows, syllables_of_lines py_int wrows k ls = Ok rows.
Proof.
  revert k; induction ls as [|l ls IH]; intros k Hp Hk; simpl; [eauto|].
  destruct (Hp l (or_introl eq_refl)) as [n Hn]. rewrite Hn. simpl.
  simpl in Hk. rewrite length_app in Hk.
  destruct (syllables_of_words_ok wrows n (words l) k) as [rs E1]; [lia|].
  rewrite E1. simpl. destruct (IH (k + List.length (words l))) as [rest E2].
  - intros l' Hl'. apply Hp. right. exact Hl'.
  - lia.
  - rewrite E2. simpl. eauto.
Qed.

Lemma word_features_ok_shape py_int p wrows :
  get_word_features py_int p = Ok wrows ->
  (forall l, In l (all_lines p) -> exists n, py_int (line_number l) = Some n) /\
  List.length wrows = List.length (flat_map words (all_lines p)).
Proof.
  unfold get_word_features. cbv zeta. intro H.
  destruct (mapR _ (all_lines p)) as [rowss|e] eqn:Hm; simpl in H; [|discriminate].
  injection H as <-. apply mapR_Forall2 in Hm.
  induction Hm as [|l rs ls rowss Hl _ IH]; simpl.
  - split; [intros _ []|reflexivity].
  - destruct (py_int (line_number l)) as [n|] eqn:Hn; simpl in Hl; [|discriminate].
    destruct IH as [IH1 IH2]. split.
    + intros l' [<-|Hl']; eauto.
    + rewrite !length_app, IH2. f_equal.
      apply mapR_Forall2 in Hl. symmetry. exact (Forall2_length Hl).
Qed.

Lemma py_index_ok_nth {A} (l : list A) i x d :
  py_index l i = Ok x ->
  x = nth (Z.to_nat (if (i <? 0)%Z then (i + Z.of_nat (List.length l))%Z else i)) l d.
Proof.
  unfold py_index. destruct (_ && _); [|discriminate].
  destruct (nth_error l _) eqn:E; simpl; intro H; [|discriminate].
  injection H as <-. symmetry. apply nth_error_nth. exact E.
Qed.

Lemma word_features_rows py_int p rows :
  get_word_features py_int p = Ok rows ->
  Forall2 (fun lw r => exists z, py_int (line_number (fst lw)) = Some z /\
                                 word_row (get_line_features p) z (snd lw) = Ok r)
          (word_occurrences p) rows.
Proof.
  unfold get_word_features, word_occurrences. cbv zeta. intro H.
  destruct (mapR _ (all_lines p)) as [rowss|e] eqn:Hm; simpl in H; [|discriminate].
  injection H as <-. apply mapR_Forall2 in Hm.
  apply (Forall2_flatten words
           (fun l w r => exists z, py_int (line_number l) = Some z /\
                                   word_row (get_line_features p) z w = Ok r)).
  eapply Forall2_impl; [|exact Hm]. intros l rs Hl. simpl in Hl.
  destruct (py_int (line_number l)) as [z|] eqn:Hz; simpl in Hl; [|discriminate].
  apply mapR_Forall2 in Hl. eapply Forall2_impl; [|exact Hl].
  intros w r Hw. exists z. split; [reflexivity|exact Hw].
Qed.

Lemma word_row_selects p z w r :
  word_row (get_line_features p) z w = Ok r ->
  (1 - Z.of_nat (List.length (get_line_features p)) <= z <=
   Z.of_nat (List.length (get_line_features p)))%Z /\
  forall k, lookup r k =
    if str_eqb k (u "word_text") then Some (VStr (word_text w))
    else if str_eqb k (u "stanza_text") then None
    else lookup (nth (Z.to_nat (if (z <=? 0)%Z
                                then (z - 1 + Z.of_nat (List.length (get_line_features p)))%Z
                                else (z - 1)%Z))
                     (get_line_features p) []) k.
Proof.
  intro H.
  destruct (py_index (get_line_features p) (z - 1)) as [lf|e] eqn:Hi;
    [|unfold word_row in H; rewrite Hi in H; discriminate].
  assert (Hr : (- Z.of_nat (List.length (get_line_features p)) <= z - 1 <
                Z.of_nat (List.length (get_line_features p)))%Z)
    by (apply py_index_range; eauto).
  split; [lia|].
  destruct (word_row_ok p z w lf Hi) as (r' & Hr' & _ & Hk).
  rewrite H in Hr'. injection Hr' as <-.
  rewrite (py_index_ok_nth _ _ _ [] Hi) in Hk.
  assert (Hb : (z - 1 <? 0)%Z = (z <=? 0)%Z)
    by (apply eq_true_iff_eq; rewrite Z.ltb_lt, Z.leb_le; lia).
  rewrite Hb in Hk. exact Hk.
Qed.

(** C10 (amended). The word reduction fails exactly when some line's
    number is rejected by [int()], or some line that has words has
    [int(line_number)] outside [[1 - N, N]], [N] the number of line rows;
    a line without words is never indexed. Numbers in [[1 - N, 0]] do not
    fail: Python's negative indexing picks the line row at position
    [z - 1 + N], counted from the end, where a number [z] in [[1, N]] picks
    position [z - 1]. The syllable reduction fails exactly when the word
    reduction does. *)
Theorem C10_word_syllable_failure_conditions (py_int : pystr -> option Z) (p : poem) :
  ((exists e, get_word_features py_int p = Err e) <->
   exists l, In l (all_lines p) /\
     (py_int (line_number l) = None \/
      (words l <> [] /\ exists z, py_int (line_number l) = Some z /\
         ~ (1 - Z.of_nat (List.length (get_line_features p)) <= z <=
            Z.of_nat (List.length (get_line_features p)))%Z))) /\
  ((exists e, get_syllable_features py_int p = Err e) <->
   (exists e, get_word_features py_int p = Err e)) /\
  (forall rows, get_word_features py_int p = Ok rows ->
     Forall2 (fun lw r => exists z, py_int (line_number (fst lw)) = Some z /\
        (1 - Z.of_nat (List.length (get_line_features p)) <= z <=
         Z.of_nat (List.length (get_line_features p)))%Z /\
        forall k, lookup r k =
          if str_eqb k (u "word_text") then Some (VStr (word_text (snd lw)))
          else if str_eqb k (u "stanza_text") then None
          else lookup (nth (Z.to_nat (if (z <=? 0)%Z
                                      then (z - 1 + Z.of_nat (List.length (get_line_features p)))%Z
                                      else (z - 1)%Z))
                           (get_line_features p) []) k)
       (word_occurrences p) rows).
Proof.
  split; [|split].
  - unfold get_word_features. cbv zeta.
    match goal with |- (exists e, bind (mapR ?F _) _ = _) <-> _ =>
      assert (Hb : (exists e, bind (mapR F (all_lines p)) (fun rows => Ok (List.concat rows)) = Err e)
                   <-> exists e, mapR F (all_lines p) = Err e)
        by (destruct (mapR F (all_lines p)) as [x|ex]; simpl; split;
            intros [e0 H0]; try discriminate; exists ex; reflexivity);
      rewrite Hb, mapR_err end.
    split.
    + intros (l & e & Hl & He). exists l. split; [exact Hl|].
      destruct (py_int (line_number l)) as [z|] eqn:Hz; simpl in He; [right|left; reflexivity].
      destruct (proj1 (mapR_err _ _) (ex_intro _ e He)) as (w & e' & Hw & Hwe).
      split; [intro Hn; rewrite Hn in Hw; destruct Hw|].
      exists z. split; [reflexivity|]. apply word_row_err_iff with (w := w). eauto.
    + intros (l & Hl & [Hn | (Hne & z & Hz & Hout)]).
      * exists l, ValueError. split; [exact Hl|]. rewrite Hn. reflexivity.
      * destruct (words l) as [|w ws] eqn:Hws; [contradiction|].
        destruct (proj2 (word_row_err_iff p z w) Hout) as [e He].
        destruct (proj2 (mapR_err (word_row (get_line_features p) z) (words l)))
          as [e' He'].
        { exists w, e. rewrite Hws. split; [left; reflexivity | exact He]. }
        exists l, e'. split; [exact Hl|]. rewrite Hz. simpl. exact He'.
  - unfold get_syllable_features.
    destruct (get_word_features py_int p) as [wrows|e] eqn:Hw; simpl.
    + split; [|intros [e H]; discriminate].
      intros [e H]. destruct (word_features_ok_shape _ _ _ Hw) as [Hp Hlen].
      destruct (syllables_of_lines_ok py_int wrows (all_lines p) 0 Hp) as [rows Hr];
        [lia|]. rewrite Hr in H. discriminate.
    + split; intros _; eauto.
  - intros rows Hw. eapply Forall2_impl; [|exact (word_features_rows _ _ _ Hw)].
    intros lw r (z & Hz & Hr). exists z. split; [exact Hz|].
    exact (word_row_selects p z (snd lw) r Hr).
Qed.

(** C10 fails as stated: in a one-line poem whose line is numbered
    ["0"], outside [[1, 1]], both reductions return rows. *)
Lemma C10_counterexample :
  exists p l, parse_xml doc_zero = Ok p /\ In l (all_lines p) /\
    int_ascii (line_number l) = Some 0%Z /\
    ~ (1 <= 0 <= Z.of_nat (List.length (get_line_features p)))%Z /\
    (exists rows, get_word_features int_ascii p = Ok rows) /\
    (exists rows, get_syllable_features int_ascii p = Ok rows).
Proof.
  destruct (parse_xml doc_zero) as [p|e] eqn:E; [|discriminate].
  vm_compute in E. injection E as <-.
  eexists. eexists. split; [reflexivity|]. split; [left; reflexivity|].
  split; [reflexivity|]. split; [lia|].
  split; eexists; vm_compute; reflexivity.
Qed.

(** ** The pipeline *)

Lemma is_prefix_app (n b : pystr) : is_prefix n (n ++ b) = true.
Proof. induction n as [|x n IH]; simpl; [reflexivity|]. rewrite N.eqb_refl. exact IH. Qed.

Lemma str_contains_app_self (n b : pystr) : str_contains n (n ++ b) = true.
Proof.
  destruct n; [destruct b; reflexivity|]. simpl.
  rewrite N.eqb_refl, is_prefix_app. reflexivity.
Qed.

Lemma str_contains_app_l (n a h : pystr) :
  str_contains n h = true -> str_contains n (a ++ h) = true.
Proof.
  intro H. induction a as [|x a IH]; simpl; [exact H|].
  rewrite IH. apply orb_true_r.
Qed.

Lemma msg_granularity_names (g : pystr) (c : corpus) :
  str_contains g (msg_granularity g c) = true /\
  str_contains (name c) (msg_granularity g c) = true.
Proof.
  unfold msg_granularity. split.
  - apply str_contains_app_l, str_contains_app_self.
  - apply str_contains_app_l, str_contains_app_l, str_contains_app_l,
      str_contains_app_self.
Qed.

Section PipelineProofs.

Context {World : Type}.
Variable folder_exists : World -> pystr -> bool.
Variable download_archive : pystr -> pystr -> World -> result World.
Variable read_corpus : pystr -> pystr -> World -> result (list poem).
Variable make_dirs : pystr -> World -> result World.
Variable write_json : value -> pystr -> World -> result World.
Variable py_title : pystr -> pystr.
Variable py_int : pystr -> option Z.
Variable corpora_sources : list corpus.

Local Abbreviation download_one' :=
  (download_one folder_exists download_archive corpora_sources).
Local Abbreviation download_loop' :=
  (download_loop folder_exists download_archive corpora_sources).
Local Abbreviation download_corpora' :=
  (download_corpora folder_exists download_archive corpora_sources).
Local Abbreviation save_poem' := (save_poem make_dirs write_json py_title).
Local Abbreviation process_corpus' :=
  (process_corpus read_corpus make_dirs write_json py_title py_int corpora_sources).
Local Abbreviation corpus_loop' :=
  (corpus_loop read_corpus make_dirs write_json py_title py_int corpora_sources).
Local Abbreviation get_corpora' :=
  (get_corpora folder_exists download_archive read_corpus make_dirs write_json
     py_title py_int corpora_sources).

Lemma bind_ok {A B} (m : @M World A) (f : A -> M B) s a s1 l1 :
  m s = (Ok a, s1, l1) ->
  mbind m f s = (let '(r, s2, l2) := f a s1 in (r, s2, l1 ++ l2)).
Proof. intro H. unfold mbind. rewrite H. reflexivity. Qed.

Lemma bind_err {A B} (m : @M World A) (f : A -> M B) s e s1 l1 :
  m s = (Err e, s1, l1) -> mbind m f s = (Err e, s1, l1).
Proof. intro H. unfold mbind. rewrite H. reflexivity. Qed.

Lemma quiet_ret {A} (a : A) : quiet (@mret World A a).
Proof. intros s r s' l H. inversion H. auto. Qed.

Lemma quiet_lift {A} (r0 : result A) : quiet (@lift World A r0).
Proof. intros s r s' l H. inversion H. auto. Qed.

Lemma quiet_on_world (f : World -> result World) : quiet (on_world f).
Proof.
  intros s r s' l H. unfold on_world in H.
  destruct (f (world s)); inversion H; auto.
Qed.

Lemma quiet_bind {A B} (m : @M World A) (f : A -> M B) :
  quiet m -> (forall a, quiet (f a)) -> quiet (mbind m f).
Proof.
  intros Hm Hf s r s' l H. unfold mbind in H.
  destruct (m s) as [[[a|e] s1] l1] eqn:E.
  - destruct (f a s1) as [[r2 s2] l2] eqn:E2. inversion H; subst.
    destruct (Hm _ _ _ _ E) as [-> H1]. destruct (Hf _ _ _ _ _ E2) as [-> H2].
    split; [reflexivity|congruence].
  - inversion H; subst. exact (Hm _ _ _ _ E).
Qed.

Lemma quiet_iterM {A} (f : A -> @M World unit) (l : list A) :
  (forall x, quiet (f x)) -> quiet (iterM f l).
Proof.
  intro Hf. induction l as [|x l IH]; simpl.
  - apply quiet_ret.
  - apply quiet_bind; [apply Hf | intros _; exact IH].
Qed.

Lemma quiet_save_poem (base : pystr) (p : poem) : quiet (save_poem' base p).
Proof.
  unfold save_poem.
  apply quiet_bind; [apply quiet_lift|intros a].
  apply quiet_bind; [apply quiet_on_world|intros _].
  apply quiet_bind; [apply quiet_lift|intros t].
  apply quiet_on_world.
Qed.

Lemma download_one_unregistered (o : pystr) (i : Z) (s : St) :
  py_index corpora_sources i = Err IndexError ->
  download_one' o i s = (Err IndexError, s, []).
Proof. intro H. unfold download_one. apply bind_err. unfold lift. rewrite H. reflexivity. Qed.

Lemma download_one_registered (o : pystr) (i : Z) (c : corpus) (s : St) :
  py_index corpora_sources i = Ok c ->
  download_one' o i s =
    if folder_exists (world s) (slash o (folder_name c))
    then (Ok tt, s, [mkLog INFO (msg_downloaded c)])
    else on_world (download_archive (url c) o) s.
Proof.
  intro H. unfold download_one. rewrite (bind_ok _ _ s c s []);
    [|unfold lift; rewrite H; reflexivity].
  destruct (folder_exists (world s) (slash o (folder_name c))); [reflexivity|].
  unfold on_world. destruct (download_archive (url c) o (world s)); reflexivity.
Qed.

(** A successful [download_one] logs no error and keeps
    [corpora_features]. *)
Lemma download_one_ok (o : pystr) (i : Z) (s s1 : St) (l1 : list log_record) :
  download_one' o i s = (Ok tt, s1, l1) ->
  error_records l1 = [] /\ out s1 = out s.
Proof.
  intro H. destruct (py_index corpora_sources i) as [c|e] eqn:Hc.
  - rewrite (download_one_registered o i c s Hc) in H.
    destruct (folder_exists (world s) (slash o (folder_name c))).
    + inversion H; subst. auto.
    + destruct (quiet_on_world _ _ _ _ _ H) as [-> Ho]. auto.
  - unfold download_one, mbind, lift in H. rewrite Hc in H. discriminate.
Qed.

Lemma process_corpus_unregistered (o : pystr) (g : option pystr) (i : Z) (s : St) :
  py_index corpora_sources i = Err IndexError ->
  process_corpus' o g i s = (Err IndexError, s, []).
Proof. intro H. unfold process_corpus. apply bind_err. unfold lift. rewrite H. reflexivity. Qed.

Lemma download_loop_prefix (o : pystr) (bad : Z) (l2 : list Z) :
  py_index corpora_sources bad = Err IndexError ->
  forall l1 s, fst (download_loop' o (l1 ++ bad :: l2) s) = fst (download_loop' o l1 s).
Proof.
  intros Hbad l1. induction l1 as [|x l1 IH]; intro s.
  - simpl. rewrite (download_one_unregistered o bad s Hbad). reflexivity.
  - simpl. destruct (download_one' o x s) as [[[a|e] s1] l1'] eqn:E.
    + specialize (IH s1).
      destruct (download_loop' o (l1 ++ bad :: l2) s1) as [[r s2] l2'].
      destruct (download_loop' o l1 s1) as [[r' s2'] l2''].
      simpl in *. exact IH.
    + destruct e; reflexivity.
Qed.

Lemma download_corpora_prefix (o : pystr) (bad : Z) (l1 l2 : list Z) (s : St) :
  py_index corpora_sources bad = Err IndexError ->
  fst (download_corpora' (Some (l1 ++ bad :: l2)) o s) =
  fst (download_corpora' (Some l1) o s).
Proof.
  intro Hbad. destruct l1 as [|x l1].
  - simpl. rewrite (download_one_unregistered o bad s Hbad). reflexivity.
  - exact (download_loop_prefix o bad l2 Hbad (x :: l1) s).
Qed.

Lemma corpus_loop_prefix (o : pystr) (g : option pystr) (bad : Z) (l2 : list Z) :
  py_index corpora_sources bad = Err IndexError ->
  forall l1 s,
    snd (fst (iterM (process_corpus' o g) (l1 ++ bad :: l2) s)) =
    snd (fst (iterM (process_corpus' o g) l1 s)).
Proof.
  intros Hbad l1. induction l1 as [|x l1 IH]; intro s.
  - simpl. rewrite (bind_err _ _ s IndexError s []);
      [reflexivity | exact (process_corpus_unregistered o g bad s Hbad)].
  - simpl. unfold mbind.
    destruct (process_corpus' o g x s) as [[[a|e] s1] l1'] eqn:E; [|reflexivity].
    specialize (IH s1).
    destruct (iterM (process_corpus' o g) (l1 ++ bad :: l2) s1) as [[r s2] l2'].
    destruct (iterM (process_corpus' o g) l1 s1) as [[r' s2'] l2''].
    simpl in *. exact IH.
Qed.

(** C5: for a registered index whose corpus does not list the requested
    granularity, once the corpus is downloaded, read and its poems written,
    [get_corpora] returns an empty collection and emits exactly one error
    record, ["'g' granularity not found on 'name' properties"], which names
    both the granularity and the corpus; no exception reaches the caller. *)
Theorem C5_unsupported_granularity_reported (i : Z) (c : corpus) (g o : pystr)
  (s0 s1 s2 : St) (ps : list poem) (l1 l2 : list log_record)
  (Hc : py_index corpora_sources i = Ok c)
  (Hg : in_list g (granularity c) = false)
  (Hdl : download_one' o i (mkSt (world s0) []) = (Ok tt, s1, l1))
  (Hread : read_corpus (reader c) (slash o (folder_name c)) (world s1) = Ok ps)
  (Hsave : iterM (save_poem' (slash o (folder_name c))) ps s1 = (Ok tt, s2, l2)) :
  let '(r, _, logs) := get_corpora' (Some [i]) (Some g) o s0 in
  r = Ok [] /\ error_records logs = [mkLog ERROR (msg_granularity g c)] /\
  str_contains g (msg_granularity g c) = true /\
  str_contains (name c) (msg_granularity g c) = true.
Proof.
  destruct (download_one_ok _ _ _ _ _ Hdl) as [Hl1 Ho1].
  destruct (quiet_iterM _ ps (quiet_save_poem _) _ _ _ _ Hsave) as [-> Ho2].
  assert (Hp : process_corpus' o (Some g) i s1 =
               (Ok tt, s2, [mkLog ERROR (msg_granularity g c)])).
  { unfold process_corpus.
    rewrite (bind_ok _ _ s1 c s1 []); [|unfold lift; rewrite Hc; reflexivity].
    rewrite (bind_ok _ _ s1 ps s1 []); [|unfold read; rewrite Hread; reflexivity].
    rewrite (bind_ok _ _ s1 tt s2 []); [|exact Hsave].
    rewrite Hg. reflexivity. }
  unfold get_corpora.
  rewrite (bind_ok _ _ _ tt s1 (l1 ++ [])); [|cbn [download_corpora download_loop]; rewrite Hdl; reflexivity].
  cbn [corpus_loop iterM].
  rewrite (bind_ok _ _ _ tt s2 [mkLog ERROR (msg_granularity g c)]); [|exact Hp].
  cbn. rewrite Ho2, Ho1. simpl. split; [reflexivity|].
  split; [|apply msg_granularity_names].
  rewrite app_nil_r, filter_app. change (error_records l1) with (filter (fun r => match lvl r with ERROR => true | INFO => false end) l1) in Hl1.
  rewrite Hl1. reflexivity.
Qed.

(** C7: a missing corpus folder is not reported, [download_corpora]
    downloads the corpus instead. If the download raises (any exception
    but [IndexError]), [get_corpora] returns an empty collection and logs
    nothing at all; if it succeeds and the corpus is read and its poems
    written, the poems are returned, again with no log record. In neither
    case does an exception reach the caller. *)
Theorem C7_missing_folder_is_downloaded (i : Z) (c : corpus) (o : pystr) (s0 : St)
  (Hc : py_index corpora_sources i = Ok c)
  (Hmiss : folder_exists (world s0) (slash o (folder_name c)) = false) :
  (forall e rest g,
     download_archive (url c) o (world s0) = Err e -> e <> IndexError ->
     get_corpora' (Some (i :: rest)) g o s0 = (Ok [], mkSt (world s0) [], [])) /\
  (forall w1 ps s2 l2,
     download_archive (url c) o (world s0) = Ok w1 ->
     read_corpus (reader c) (slash o (folder_name c)) w1 = Ok ps ->
     iterM (save_poem' (slash o (folder_name c))) ps (mkSt w1 []) = (Ok tt, s2, l2) ->
     get_corpora' (Some [i]) None o s0 =
       (Ok [Poems ps], mkSt (world s2) [Poems ps], [])).
Proof.
  split.
  - intros e rest g Hd He.
    assert (H1 : download_one' o i (mkSt (world s0) []) =
                 (Err e, mkSt (world s0) [], [])).
    { rewrite (download_one_registered o i c _ Hc). simpl. rewrite Hmiss.
      unfold on_world. simpl. rewrite Hd. reflexivity. }
    unfold get_corpora.
    rewrite (bind_err _ _ _ e (mkSt (world s0) []) []).
    + destruct e; try (exfalso; apply He; reflexivity); reflexivity.
    + cbn [download_corpora download_loop]. rewrite H1.
      destruct e; try (exfalso; apply He; reflexivity); reflexivity.
  - intros w1 ps s2 l2 Hd Hread Hsave.
    destruct (quiet_iterM _ ps (quiet_save_poem _) _ _ _ _ Hsave) as [-> Ho2].
    simpl in Ho2.
    assert (H1 : download_one' o i (mkSt (world s0) []) = (Ok tt, mkSt w1 [], [])).
    { rewrite (download_one_registered o i c _ Hc). simpl. rewrite Hmiss.
      unfold on_world. simpl. rewrite Hd. reflexivity. }
    assert (Hp : process_corpus' o None i (mkSt w1 []) =
                 (Ok tt, mkSt (world s2) [Poems ps], [])).
    { unfold process_corpus.
      rewrite (bind_ok _ _ _ c (mkSt w1 []) []); [|unfold lift; rewrite Hc; reflexivity].
      rewrite (bind_ok _ _ _ ps (mkSt w1 []) []); [|unfold read; simpl; rewrite Hread; reflexivity].
      rewrite (bind_ok _ _ _ tt s2 []); [|exact Hsave].
      unfold append. rewrite Ho2. reflexivity. }
    unfold get_corpora.
    rewrite (bind_ok _ _ _ tt (mkSt w1 []) ([] ++ []));
      [|cbn [download_corpora download_loop]; rewrite H1; reflexivity].
    cbn [corpus_loop iterM].
    rewrite (bind_ok _ _ _ tt (mkSt (world s2) [Poems ps]) []); [|exact Hp].
    reflexivity.
Qed.

(** C8: calling [get_corpora] with an identifier that is not in
    [CORPORA_SOURCES] returns an empty collection and logs ["Index number
    not in corpora list"] (twice: once in [download_corpora], once in
    [get_corpora]); whatever the input, [get_corpora] returns a collection
    and never raises. Placed after other indices, the bad identifier ends
    the batch there: the result is what the indices before it gather. *)
Theorem C8_unregistered_index_stops_batch (bad : Z)
  (Hbad : py_index corpora_sources bad = Err IndexError) :
  (forall l2 g o s0,
     get_corpora' (Some (bad :: l2)) g o s0 =
       (Ok [], mkSt (world s0) [], [mkLog ERROR MSG_INDEX; mkLog ERROR MSG_INDEX])) /\
  (forall l1 l2 g o s0,
     fst (fst (get_corpora' (Some (l1 ++ bad :: l2)) g o s0)) =
     fst (fst (get_corpora' (Some l1) g o s0))) /\
  (forall idx g o s0, exists v, fst (fst (get_corpora' idx g o s0)) = Ok v).
Proof.
  split; [|split].
  - intros l2 g o s0. unfold get_corpora.
    rewrite (bind_ok _ _ _ tt (mkSt (world s0) []) ([] ++ [mkLog ERROR MSG_INDEX]));
      [|cbn [download_corpora download_loop];
        rewrite (download_one_unregistered _ _ _ Hbad); reflexivity].
    cbn [corpus_loop iterM].
    rewrite (bind_err _ _ _ IndexError (mkSt (world s0) []) []);
      [reflexivity | apply process_corpus_unregistered; exact Hbad].
  - intros l1 l2 g o s0. unfold get_corpora. cbv beta zeta. unfold mbind.
    pose proof (download_corpora_prefix o bad l1 l2 (mkSt (world s0) []) Hbad) as D.
    destruct (download_corpora' (Some (l1 ++ bad :: l2)) o (mkSt (world s0) []))
      as [[ra sa] la].
    destruct (download_corpora' (Some l1) o (mkSt (world s0) [])) as [[rb sb] lb].
    simpl in D. injection D as -> ->.
    destruct rb as [a|e]; [|reflexivity].
    unfold corpus_loop.
    pose proof (corpus_loop_prefix o g bad l2 Hbad l1 sb) as P.
    destruct (iterM (process_corpus' o g) (l1 ++ bad :: l2) sb) as [[r1 s1] m1].
    destruct (iterM (process_corpus' o g) l1 sb) as [[r2 s2] m2].
    simpl in P. subst. reflexivity.
  - intros idx g o s0. unfold get_corpora.
    lazymatch goal with
    | |- context [match ?x with (_, _) => _ end] => destruct x as [[r s1] l]
    end.
    eexists. reflexivity.
Qed.

End PipelineProofs.

Lemma C5_witness :
  let '(r, _, logs) :=
    get_corpora tw_exists tw_download_ok tw_read tw_make_dirs tw_write
      ascii_title int_ascii [plsdo_corpus] (Some [0%Z]) (Some (u "verse")) OUT
      (mkSt [plsdo_dir] []) in
  r = Ok [] /\
  error_records logs = [mkLog ERROR (msg_granularity (u "verse") plsdo_corpus)] /\
  str_contains (u "verse") (msg_granularity (u "verse") plsdo_corpus) = true /\
  str_contains (name plsdo_corpus) (msg_granularity (u "verse") plsdo_corpus) = true.
Proof.
  apply (C5_unsupported_granularity_reported tw_exists tw_download_ok tw_read
           tw_make_dirs tw_write ascii_title int_ascii [plsdo_corpus] 0
           plsdo_corpus (u "verse") OUT (mkSt [plsdo_dir] []) (mkSt [plsdo_dir] [])
           (mkSt [ana_dir; plsdo_dir] []) rosa_poems
           [mkLog INFO (msg_downloaded plsdo_corpus)] []);
    vm_compute; reflexivity.
Defined.

Lemma C7_witness :
  get_corpora tw_exists tw_download_fail tw_read tw_make_dirs tw_write
    ascii_title int_ascii [plsdo_corpus] (Some [0%Z]) None OUT (mkSt [] []) =
    (Ok [], mkSt [] [], []) /\
  get_corpora tw_exists tw_download_ok tw_read tw_make_dirs tw_write
    ascii_title int_ascii [plsdo_corpus] (Some [0%Z]) None OUT (mkSt [] []) =
    (Ok [Poems rosa_poems], mkSt [ana_dir; plsdo_dir] [Poems rosa_poems], []).
Proof.
  split.
  - refine (proj1 (C7_missing_folder_is_downloaded tw_exists tw_download_fail
             tw_read tw_make_dirs tw_write ascii_title int_ascii [plsdo_corpus] 0
             plsdo_corpus OUT (mkSt [] []) _ _) URLError [] None _ _);
      vm_compute; try reflexivity.
    intro H; discriminate H.
  - refine (proj2 (C7_missing_folder_is_downloaded tw_exists tw_download_ok
             tw_read tw_make_dirs tw_write ascii_title int_ascii [plsdo_corpus] 0
             plsdo_corpus OUT (mkSt [] []) _ _) [plsdo_dir] rosa_poems
             (mkSt [ana_dir; plsdo_dir] []) [] _ _ _);
      vm_compute; reflexivity.
Defined.

(** C7 fails as stated: with the corpus folder missing, a working download
    makes [get_corpora] return the parsed poems, and a failing one gives an
    empty collection with no log record naming the folder, or any other. *)
Lemma C7_counterexample :
  tw_exists [] plsdo_dir = false /\
  (let '(r, _, logs) :=
     get_corpora tw_exists tw_download_ok tw_read tw_make_dirs tw_write
       ascii_title int_ascii [plsdo_corpus] (Some [0%Z]) None OUT (mkSt [] []) in
   r <> Ok [] /\ logs = []) /\
  (let '(r, _, logs) :=
     get_corpora tw_exists tw_download_fail tw_read tw_make_dirs tw_write
       ascii_title int_ascii [plsdo_corpus] (Some [0%Z]) None OUT (mkSt [] []) in
   r = Ok [] /\ logs = []).
Proof.
  vm_compute. split; [reflexivity|].
  split; [split; [intro H; discriminate H | reflexivity] | split; reflexivity].
Qed.

Lemma C8_witness :
  py_index [plsdo_corpus] 7 = Err IndexError /\
  get_corpora tw_exists tw_download_ok tw_read tw_make_dirs tw_write
    ascii_title int_ascii [plsdo_corpus] (Some [7%Z]) None OUT (mkSt [plsdo_dir] []) =
    (Ok [], mkSt [plsdo_dir] [], [mkLog ERROR MSG_INDEX; mkLog ERROR MSG_INDEX]) /\
  fst (fst (get_corpora tw_exists tw_download_ok tw_read tw_make_dirs tw_write
    ascii_title int_ascii [plsdo_corpus] (Some [0%Z; 7%Z]) None OUT
    (mkSt [plsdo_dir] []))) =
  fst (fst (get_corpora tw_exists tw_download_ok tw_read tw_make_dirs tw_write
    ascii_title int_ascii [plsdo_corpus] (Some [0%Z]) None OUT
    (mkSt [plsdo_dir] []))).
Proof.
  assert (H : py_index [plsdo_corpus] 7 = Err IndexError) by reflexivity.
  destruct (C8_unregistered_index_stops_batch tw_exists tw_download_ok tw_read
              tw_make_dirs tw_write ascii_title int_ascii [plsdo_corpus] 7 H)
    as (Hfirst & Hprefix & _).
  split; [exact H|]. split; [apply Hfirst | exact (Hprefix [0%Z] [] None OUT _)].
Defined.

(* ------------------------------------------------------------------ *)
(** ** More of the reader *)

Lemma enum_mapR_length {A B} (f : nat -> A -> result B) i l l' :
  enum_mapR f i l = Ok l' -> List.length l' = List.length l.
Proof.
  revert i l'; induction l as [|x l IH]; intros i l' H; simpl in H.
  - inversion H; reflexivity.
  - ok_step H. ok_step H. inversion H; subst. simpl. f_equal. eapply IH; eassumption.
Qed.

Lemma enum_mapR_err {A B} (f : nat -> A -> result B) i l x :
  In x l -> (forall j, exists e, f j x = Err e) -> exists e, enum_mapR f i l = Err e.
Proof.
  revert i; induction l as [|y l IH]; intros i Hx Hf; [destruct Hx|]. simpl.
  destruct (f i y) as [b|e] eqn:Ey; simpl; [|eauto].
  destruct Hx as [<-|Hx]; [destruct (Hf i) as [e He]; congruence|].
  destruct (IH (S i) Hx Hf) as [e He]. rewrite He. simpl. eauto.
Qed.

Lemma parse_stanza_number i lg s :
  parse_stanza i lg = Ok s -> stanza_number s = str_of_nat (S i).
Proof. unfold parse_stanza. intro H. do 3 ok_step H. inversion H. reflexivity. Qed.

Lemma enum_mapR_stanza_numbers i l sts :
  enum_mapR parse_stanza i l = Ok sts ->
  map stanza_number sts = map (fun j => str_of_nat (S j)) (seq i (List.length sts)).
Proof.
  revert i sts; induction l as [|x l IH]; intros i sts H; simpl in H.
  - inversion H; reflexivity.
  - ok_step H. ok_step H. inversion H; subst. simpl.
    rewrite (parse_stanza_number _ _ _ E), (IH _ _ E0). reflexivity.
Qed.

Lemma parse_xml_stanzas root p :
  parse_xml (WellFormed root) = Ok p ->
  enum_mapR parse_stanza 0 (findall_desc (TEI "lg") root) = Ok (stanzas p).
Proof.
  simpl. intro H. do 4 ok_step H. injection H as <-. reflexivity.
Qed.

(** [parse_xml] gives one stanza per [lg] element found anywhere below
    the root, in document order, and numbers them ["1"], ["2"], ... *)
Theorem parse_xml_stanza_numbering (root : element) (p : poem) :
  parse_xml (WellFormed root) = Ok p ->
  List.length (stanzas p) = List.length (findall_desc (TEI "lg") root) /\
  map stanza_number (stanzas p) =
    map (fun i => str_of_nat (S i)) (seq 0 (List.length (stanzas p))).
Proof.
  intro H. apply parse_xml_stanzas in H.
  split; [exact (enum_mapR_length _ _ _ _ H) | exact (enum_mapR_stanza_numbers _ _ _ H)].
Qed.

Lemma parse_xml_stanza_numbering_witness :
  exists p, parse_xml (WellFormed (root_of doc_rosa)) = Ok p /\
  List.length (stanzas p) = List.length (findall_desc (TEI "lg") (root_of doc_rosa)) /\
  map stanza_number (stanzas p) =
    map (fun i => str_of_nat (S i)) (seq 0 (List.length (stanzas p))).
Proof.
  destruct (parse_xml (WellFormed (root_of doc_rosa))) as [p|e] eqn:E; [|discriminate].
  exists p. split; [reflexivity|]. exact (parse_xml_stanza_numbering _ p E).
Defined.

Lemma parse_stanza_child_err i lg c :
  In c (el_children lg) -> attr c "met" = Err KeyError ->
  exists e, parse_stanza i lg = Err e.
Proof.
  intros Hc Hm. unfold parse_stanza.
  destruct (attr lg "type") as [ty|e]; simpl; [|eauto].
  destruct (proj2 (mapR_err parse_line (el_children lg))) as [e He].
  { exists c, KeyError. split; [exact Hc|]. unfold parse_line. rewrite Hm. reflexivity. }
  rewrite He. simpl. eauto.
Qed.

(** Every child of an [lg] element is read as a line, whatever its tag:
    one without a [met] attribute, an XML comment in particular, makes
    [parse_xml] raise for the whole document. *)
Theorem parse_xml_lg_child_without_met_fails (root lg c : element) :
  In lg (findall_desc (TEI "lg") root) -> In c (el_children lg) ->
  attr c "met" = Err KeyError ->
  exists e, parse_xml (WellFormed root) = Err e.
Proof.
  intros Hlg Hc Hm. simpl.
  destruct (first_or_attr_error (select_metdecl_p root)); simpl; [|eauto].
  destruct (first_or_attr_error (select_bibl "title" root)); simpl; [|eauto].
  destruct (first_or_attr_error (select_bibl "author" root)); simpl; [|eauto].
  destruct (enum_mapR_err parse_stanza 0 _ lg Hlg) as [e He].
  { intro j. exact (parse_stanza_child_err j lg c Hc Hm). }
  rewrite He. simpl. eauto.
Qed.

Lemma parse_xml_lg_child_without_met_fails_witness :
  let root := root_of doc_comment in
  let lg := nth 0 (findall_desc (TEI "lg") root) (mk_w "") in
  let c := nth 0 (el_children lg) (mk_w "") in
  el_tag c = CommentNode /\ In lg (findall_desc (TEI "lg") root) /\
  In c (el_children lg) /\ attr c "met" = Err KeyError /\
  exists e, parse_xml (WellFormed root) = Err e.
Proof.
  intros root lg c.
  assert (H1 : In lg (findall_desc (TEI "lg") root)) by (vm_compute; left; reflexivity).
  assert (H2 : In c (el_children lg)) by (vm_compute; left; reflexivity).
  assert (H3 : attr c "met" = Err KeyError) by reflexivity.
  split; [reflexivity|]. split; [exact H1|]. split; [exact H2|]. split; [exact H3|].
  exact (parse_xml_lg_child_without_met_fails root lg c H1 H2 H3).
Defined.

Lemma py_split_no_sep sep s x : In x (py_split sep s) -> ~ In sep x.
Proof.
  revert x; induction s as [|c s IH]; intros x Hx; simpl in Hx.
  - destruct Hx as [<-|[]]. intros [].
  - destruct (N.eqb c sep) eqn:E.
    + destruct Hx as [<-|Hx]; [intros []| exact (IH _ Hx)].
    + assert (IH' : forall y, In y (py_split sep s) -> ~ In sep y) by exact IH.
      destruct (py_split sep s) as [|r rs].
      * destruct Hx as [<-|[]]. intros [H|[]]. subst. rewrite N.eqb_refl in E. discriminate.
      * destruct Hx as [<-|Hx].
        -- intros [H|H]; [subst; rewrite N.eqb_refl in E; discriminate|].
           exact (IH' r (or_introl eq_refl) H).
        -- exact (IH' x (or_intror Hx)).
Qed.

Lemma sub_digit_runs_from_no_digit_out b s x :
  In x (sub_digit_runs_from b s) -> is_digit x = false.
Proof.
  revert b; induction s as [|c s IH]; intro b; simpl; [intros []|].
  destruct (is_digit c) eqn:Ec; [destruct b|]; simpl; intro H.
  - exact (IH _ H).
  - destruct H as [<-|H]; [reflexivity | exact (IH _ H)].
  - destruct H as [<-|H]; [exact Ec | exact (IH _ H)].
Qed.

Lemma parse_xml_patterns f p s l :
  parse_xml f = Ok p -> In s (stanzas p) -> In l (lines s) ->
  exists met, metrical_pattern l = metrical_pattern_of met.
Proof.
  destruct f as [root|]; simpl; [|discriminate]. intro H.
  do 4 ok_step H. inversion H; subst; clear H. simpl.
  intros Hs Hl.
  destruct (enum_mapR_ok_in _ _ _ _ _ E2 Hs) as (i & lg & _ & Hst).
  unfold parse_stanza in Hst. do 3 ok_step Hst. inversion Hst; subst; clear Hst.
  simpl in Hl. apply in_map_iff in Hl as [[lp t] [Heq Hin]]. subst l. simpl.
  apply in_combine_l in Hin.
  destruct (mapR_ok_in _ _ _ _ E4 Hin) as (el & _ & Hpl).
  unfold parse_line in Hpl. do 4 ok_step Hpl. inversion Hpl; subst; clear Hpl.
  simpl. eauto.
Qed.

(** No field of a parsed poem keeps the markup of the source: metrical
    patterns hold no ['|'] and no digit, [word_text] holds no ['|'], and
    every syllable is non-empty and holds no ['|']. *)
Theorem parse_xml_fields_markup_free (f : xml_file) (p : poem) :
  parse_xml f = Ok p ->
  forall s l, In s (stanzas p) -> In l (lines s) ->
    ~ In PIPE (metrical_pattern l) /\
    forallb (fun c => negb (is_digit c)) (metrical_pattern l) = true /\
    forall w, In w (words l) ->
      ~ In PIPE (word_text w) /\
      forall x, In x (syllables w) -> x <> [] /\ ~ In PIPE x.
Proof.
  intros H s l Hs Hl.
  assert (Hsyl : forall w, In w (words l) ->
            forall x, In x (syllables w) -> x <> [] /\ ~ In PIPE x).
  { intros w Hw x Hx.
    destruct (parse_xml_words _ _ _ _ _ H Hs Hl Hw) as [e He].
    destruct (parse_word_shape _ _ He) as (t & c & _ & _ & Hsy & _ & _).
    rewrite Hsy in Hx. apply filter_In in Hx as [Hx Hne]. split.
    - intro E. subst x. discriminate.
    - exact (py_split_no_sep _ _ _ Hx). }
  destruct (parse_xml_patterns _ _ _ _ H Hs Hl) as [met Hm]. rewrite Hm.
  unfold metrical_pattern_of, sub_digit_runs. split; [|split].
  - intro Hp. apply sub_digit_runs_from_in in Hp as [Hp|Hp]; [discriminate|].
    unfold replace_pipe in Hp. apply filter_In in Hp as [_ Hp].
    rewrite N.eqb_refl in Hp. discriminate.
  - apply forallb_forall. intros x Hx.
    rewrite (sub_digit_runs_from_no_digit_out _ _ _ Hx). reflexivity.
  - intros w Hw. split; [|exact (Hsyl w Hw)].
    destruct (parse_xml_words _ _ _ _ _ H Hs Hl Hw) as [e He].
    destruct (parse_word_shape _ _ He) as (t & c & _ & _ & _ & Ht & _). rewrite Ht.
    intro Hp. apply in_concat in Hp as [x [Hx Hp]].
    exact (proj2 (Hsyl w Hw x Hx) Hp).
Qed.

Lemma parse_xml_fields_markup_free_witness :
  exists p, parse_xml doc_rosa = Ok p /\
  forall s l, In s (stanzas p) -> In l (lines s) ->
    ~ In PIPE (metrical_pattern l) /\
    forallb (fun c => negb (is_digit c)) (metrical_pattern l) = true /\
    forall w, In w (words l) ->
      ~ In PIPE (word_text w) /\
      forall x, In x (syllables w) -> x <> [] /\ ~ In PIPE x.
Proof.
  destruct (parse_xml doc_rosa) as [p|e] eqn:E; [|discriminate].
  exists p. split; [reflexivity|]. exact (parse_xml_fields_markup_free doc_rosa p E).
Defined.

Lemma py_split_not_nil sep s : py_split sep s <> [].
Proof.
  destruct s as [|c s]; simpl; [discriminate|].
  destruct (N.eqb c sep); [discriminate|]. destruct (py_split sep s); discriminate.
Qed.

Lemma py_split_app_nosep sep x y :
  ~ In sep x ->
  py_split sep (x ++ y) =
  match py_split sep y with r :: rs => (x ++ r) :: rs | [] => [x] end.
Proof.
  induction x as [|c x IH]; intro H; simpl.
  - pose proof (py_split_not_nil sep y). destruct (py_split sep y); [contradiction|].
    reflexivity.
  - assert (Hc : N.eqb c sep = false).
    { apply N.eqb_neq. intro E. subst. apply H. left. reflexivity. }
    rewrite Hc, IH by (intro Hx; apply H; right; exact Hx).
    destruct (py_split sep y); reflexivity.
Qed.

Lemma py_split_join sep texts :
  texts <> [] -> Forall (fun t => ~ In sep t) texts ->
  py_split sep (py_join [sep] texts) = texts.
Proof.
  induction texts as [|t ts IH]; intros Hne HF; [contradiction|].
  inversion HF as [|? ? Ht Hts]; subst. destruct ts as [|t' ts'].
  - simpl. pose proof (py_split_app_nosep sep t [] Ht) as E.
    rewrite app_nil_r in E. rewrite E. simpl. rewrite app_nil_r. reflexivity.
  - change (py_join [sep] (t :: t' :: ts')) with (t ++ [sep] ++ py_join [sep] (t' :: ts')).
    rewrite (py_split_app_nosep sep t _ Ht).
    assert (Hs : forall r, py_split sep ([sep] ++ r) = [] :: py_split sep r)
      by (intro r; simpl; rewrite N.eqb_refl; reflexivity).
    rewrite Hs, IH by (discriminate || exact Hts). rewrite app_nil_r. reflexivity.
Qed.

Lemma map_snd_combine {A B} (a : list A) (b : list B) :
  List.length a = List.length b -> map snd (combine a b) = b.
Proof.
  revert b; induction a as [|x a IH]; intros [|y b] H; simpl in *;
    try discriminate; [reflexivity|]. rewrite IH by lia. reflexivity.
Qed.

Lemma parse_xml_stanza_text f p s :
  parse_xml f = Ok p -> In s (stanzas p) ->
  stanza_text s = py_join [NEWLINE] (map line_text (lines s)).
Proof.
  destruct f as [root|]; simpl; [|discriminate]. intro H.
  do 4 ok_step H. inversion H; subst; clear H. simpl. intro Hs.
  destruct (enum_mapR_ok_in _ _ _ _ _ E2 Hs) as (i & lg & _ & Hst).
  unfold parse_stanza in Hst. do 3 ok_step Hst. inversion Hst; subst; clear Hst.
  simpl. f_equal. rewrite map_map.
  rewrite (map_ext _ snd) by (intros [lp t]; reflexivity).
  symmetry. apply map_snd_combine.
  apply mapR_Forall2 in E5. exact (Forall2_length E5).
Qed.

(** A stanza's [stanza_text] is the ["\n"]-join of its lines' texts; for
    a stanza with at least one line and no line text holding a newline,
    splitting [stanza_text] on ["\n"] gives the line texts back. *)
Theorem parse_xml_stanza_text_round_trip (f : xml_file) (p : poem) :
  parse_xml f = Ok p ->
  forall s, In s (stanzas p) ->
    stanza_text s = py_join [NEWLINE] (map line_text (lines s)) /\
    (lines s <> [] -> (forall l, In l (lines s) -> ~ In NEWLINE (line_text l)) ->
     py_split NEWLINE (stanza_text s) = map line_text (lines s)).
Proof.
  intros H s Hs. pose proof (parse_xml_stanza_text _ _ _ H Hs) as Et.
  split; [exact Et|]. intros Hne Hnl. rewrite Et. apply py_split_join.
  - destruct (lines s); [contradiction | discriminate].
  - apply Forall_forall. intros t Ht. apply in_map_iff in Ht as [l [<- Hl]]. auto.
Qed.

Lemma parse_xml_stanza_text_round_trip_witness :
  exists p, parse_xml doc_pair = Ok p /\
  forall s, In s (stanzas p) ->
    stanza_text s = py_join [NEWLINE] (map line_text (lines s)) /\
    (lines s <> [] -> (forall l, In l (lines s) -> ~ In NEWLINE (line_text l)) ->
     py_split NEWLINE (stanza_text s) = map line_text (lines s)).
Proof.
  destruct (parse_xml doc_pair) as [p|e] eqn:E; [|discriminate].
  exists p. split; [reflexivity|]. exact (parse_xml_stanza_text_round_trip doc_pair p E).
Defined.

(* ------------------------------------------------------------------ *)
(** ** More of the reducer *)

Lemma syllable_rows_length wrows n k w rs :
  syllable_rows wrows n k w = Ok rs -> List.length rs = List.length (syllables w).
Proof.
  unfold syllable_rows. intro H. apply mapR_Forall2 in H.
  symmetry. exact (Forall2_length H).
Qed.

Lemma syllables_of_words_length wrows n k ws rs k' :
  syllables_of_words wrows n k ws = Ok (rs, k') ->
  List.length rs = List.length (flat_map syllables ws) /\ k' = k + List.length ws.
Proof.
  revert k rs k'; induction ws as [|w ws IH]; intros k rs k' H; simpl in H.
  - injection H as <- <-. simpl. split; [reflexivity|lia].
  - destruct (syllable_rows wrows n k w) as [rs1|] eqn:E1; simpl in H; [|discriminate].
    destruct (syllables_of_words wrows n (S k) ws) as [[rs2 k2]|] eqn:E2;
      simpl in H; [|discriminate].
    injection H as <- <-. destruct (IH _ _ _ E2) as [H1 H2]. simpl.
    rewrite !length_app, (syllable_rows_length _ _ _ _ _ E1), H1. split; [reflexivity|lia].
Qed.

Lemma syllables_of_lines_length py_int wrows k ls rows :
  syllables_of_lines py_int wrows k ls = Ok rows ->
  List.length rows = List.length (flat_map syllables (flat_map words ls)).
Proof.
  revert k rows; induction ls as [|l ls IH]; intros k rows H; simpl in H.
  - injection H as <-. reflexivity.
  - destruct (py_int (line_number l)) as [n|]; simpl in H; [|discriminate].
    destruct (syllables_of_words wrows n k (words l)) as [[rs k']|] eqn:E1;
      simpl in H; [|discriminate].
    destruct (syllables_of_lines py_int wrows k' ls) as [rest|] eqn:E2;
      simpl in H; [|discriminate].
    injection H as <-. simpl. rewrite flat_map_app, !length_app.
    rewrite (proj1 (syllables_of_words_length _ _ _ _ _ _ E1)), (IH _ _ E2). reflexivity.
Qed.

(** The reducer gives one stanza row per stanza, one line row per line,
    and, when they succeed, one word row per word and one syllable row
    per syllable of the poem. *)
Theorem reduce_row_counts (py_int : pystr -> option Z) (p : poem) :
  List.length (get_stanza_features p) = List.length (stanzas p) /\
  List.length (get_line_features p) = List.length (all_lines p) /\
  (forall rows, get_word_features py_int p = Ok rows ->
     List.length rows = List.length (flat_map words (all_lines p))) /\
  (forall rows, get_syllable_features py_int p = Ok rows ->
     List.length rows = List.length (flat_map syllables (flat_map words (all_lines p)))).
Proof.
  split; [|split; [|split]].
  - apply length_map.
  - unfold get_line_features, all_lines. induction (stanzas p) as [|s ss IH]; [reflexivity|].
    simpl. rewrite !length_app, length_map, IH. reflexivity.
  - intros rows H. exact (proj2 (word_features_ok_shape _ _ _ H)).
  - unfold get_syllable_features. intros rows H.
    destruct (get_word_features py_int p) as [wrows|]; simpl in H; [|discriminate].
    exact (syllables_of_lines_length _ _ _ _ _ H).
Qed.

(** Every line row has, in this order, [line_number], [line_text] and
    [metrical_pattern], then [words] when the line has no words (the whole
    line dict is copied, so its empty [words] list comes along), then the
    six stanza keys. *)
Theorem line_rows_keys (p : poem) (r : dict) :
  In r (get_line_features p) ->
  exists s l, In s (stanzas p) /\ In l (lines s) /\
    keys r = [u "line_number"; u "line_text"; u "metrical_pattern"] ++
             (match words l with [] => [u "words"] | _ :: _ => [] end) ++
             [u "stanza_number"; u "manually_checked"; u "poem_title";
              u "author"; u "stanza_text"; u "stanza_type"] /\
    (words l = [] -> lookup r (u "words") = Some (VList [])).
Proof.
  intro H. destruct (line_row_shape _ _ H) as (s & l & Hs & Hl & ->).
  exists s, l. split; [exact Hs|]. split; [exact Hl|].
  unfold line_features, line_dict. destruct (words l) as [|w ws].
  - split; reflexivity.
  - split; [reflexivity | discriminate].
Qed.

Lemma line_rows_keys_witness :
  exists p, parse_xml doc_pair = Ok p /\
  In (nth 1 (get_line_features p) []) (get_line_features p) /\
  exists s l, In s (stanzas p) /\ In l (lines s) /\
    keys (nth 1 (get_line_features p) []) =
      [u "line_number"; u "line_text"; u "metrical_pattern"] ++
      (match words l with [] => [u "words"] | _ :: _ => [] end) ++
      [u "stanza_number"; u "manually_checked"; u "poem_title";
       u "author"; u "stanza_text"; u "stanza_type"] /\
    (words l = [] -> lookup (nth 1 (get_line_features p) []) (u "words") = Some (VList [])).
Proof.
  destruct (parse_xml doc_pair) as [p|e] eqn:E; [|discriminate].
  assert (Hin : In (nth 1 (get_line_features p) []) (get_line_features p)).
  { vm_compute in E. injection E as <-. vm_compute. right. left. reflexivity. }
  exists p. split; [reflexivity|]. split; [exact Hin|].
  exact (line_rows_keys p _ Hin).
Defined.

Lemma word_syllables_from_app k ws1 ws2 :
  word_syllables_from k (ws1 ++ ws2) =
  word_syllables_from k ws1 ++ word_syllables_from (k + List.length ws1) ws2.
Proof.
  revert k; induction ws1 as [|w ws1 IH]; intro k; simpl.
  - rewrite Nat.add_0_r. reflexivity.
  - rewrite IH, app_assoc. do 2 f_equal. lia.
Qed.

Lemma line_row_lookups p lf :
  In lf (get_line_features p) ->
  lookup lf (u "syllable") = None /\
  exists v, lookup lf (u "line_number") = Some (VStr v).
Proof.
  intro H. destruct (line_row_shape _ _ H) as (s & l & _ & _ & ->).
  unfold line_features, line_dict. destruct (words l); (split; [reflexivity | eexists; reflexivity]).
Qed.

Lemma word_syllables_from_bound k0 ws k x :
  In (k, x) (word_syllables_from k0 ws) -> k < k0 + List.length ws.
Proof.
  revert k0; induction ws as [|w ws IH]; intros k0 H; simpl in H; [contradiction|].
  apply in_app_or in H as [H|H].
  - apply in_map_iff in H as [y [Hy _]]. injection Hy as -> _. simpl. lia.
  - apply IH in H. simpl. lia.
Qed.

Lemma Forall2_in_r {A B} (R : A -> B -> Prop) l l' y :
  Forall2 R l l' -> In y l' -> exists x, In x l /\ R x y.
Proof.
  induction 1 as [|a b l l' Hab _ IH]; intro H; [contradiction|].
  destruct H as [<-|H]; [exists a; split; [left|]; auto|].
  destruct (IH H) as [x [Hx Hr]]. exists x. split; [right|]; auto.
Qed.

Section SyllableRows.

Variable wrows : list dict.
Hypothesis Hwrows : forall wf, In wf wrows ->
  NoDup (keys wf) /\ lookup wf (u "syllable") = None /\
  exists v, lookup wf (u "line_number") = Some (VStr v).

Lemma syllable_rows_spec n k w rs :
  syllable_rows wrows n k w = Ok rs ->
  Forall2 (syllable_row_of wrows) (map (fun x => (k, x)) (syllables w)) rs.
Proof.
  unfold syllable_rows. intro H. apply mapR_Forall2 in H.
  induction H as [|x r xs rs Hx _ IH]; simpl; constructor; [|exact IH].
  destruct (py_index wrows (Z.of_nat k)) as [wf|] eqn:Ei; simpl in Hx; [|discriminate].
  injection Hx as <-.
  assert (Hk : k < List.length wrows).
  { assert (Hr : (- Z.of_nat (List.length wrows) <= Z.of_nat k <
                  Z.of_nat (List.length wrows))%Z) by (apply py_index_range; eauto).
    lia. }
  rewrite (py_index_nth wrows k [] Hk) in Ei. injection Ei as <-.
  destruct (Hwrows _ (@nth_In _ k wrows [] Hk)) as (Hnd & Hsy & v & Hln).
  split.
  - rewrite lookup_dict_update, Hsy by exact Hnd. reflexivity.
  - intros key Hkey. simpl. rewrite lookup_dict_update by exact Hnd.
    destruct (lookup (nth k wrows []) key) eqn:Ek; [reflexivity|].
    cbn [lookup]. rewrite str_eqb_sym, Hkey.
    destruct (str_eqb (u "line_number") key) eqn:El; [|reflexivity].
    apply str_eqb_spec in El. subst key. congruence.
Qed.

Lemma syllables_of_words_spec n k ws rs k' :
  syllables_of_words wrows n k ws = Ok (rs, k') ->
  Forall2 (syllable_row_of wrows) (word_syllables_from k ws) rs /\ k' = k + List.length ws.
Proof.
  revert k rs k'; induction ws as [|w ws IH]; intros k rs k' H; simpl in H.
  - injection H as <- <-. split; [constructor | simpl; lia].
  - destruct (syllable_rows wrows n k w) as [rs1|] eqn:E1; simpl in H; [|discriminate].
    destruct (syllables_of_words wrows n (S k) ws) as [[rs2 k2]|] eqn:E2;
      simpl in H; [|discriminate].
    injection H as <- <-. destruct (IH _ _ _ E2) as [H1 H2]. simpl. split; [|lia].
    apply Forall2_app; [exact (syllable_rows_spec _ _ _ _ E1) | exact H1].
Qed.

Lemma syllables_of_lines_spec py_int k ls rows :
  syllables_of_lines py_int wrows k ls = Ok rows ->
  Forall2 (syllable_row_of wrows) (word_syllables_from k (flat_map words ls)) rows.
Proof.
  revert k rows; induction ls as [|l ls IH]; intros k rows H; simpl in H.
  - injection H as <-. constructor.
  - destruct (py_int (line_number l)) as [n|]; simpl in H; [|discriminate].
    destruct (syllables_of_words wrows n k (words l)) as [[rs k']|] eqn:E1;
      simpl in H; [|discriminate].
    destruct (syllables_of_lines py_int wrows k' ls) as [rest|] eqn:E2;
      simpl in H; [|discriminate].
    injection H as <-. simpl. rewrite word_syllables_from_app.
    destruct (syllables_of_words_spec _ _ _ _ _ E1) as [H1 ->].
    apply Forall2_app; [exact H1 | exact (IH _ _ E2)].
Qed.

End SyllableRows.

Lemma word_rows_lookups py_int p wrows :
  get_word_features py_int p = Ok wrows ->
  forall wf, In wf wrows ->
  NoDup (keys wf) /\ lookup wf (u "syllable") = None /\
  exists v, lookup wf (u "line_number") = Some (VStr v).
Proof.
  intros H wf Hin.
  destruct (word_rows_from_line_rows _ _ _ _ H Hin) as (Hnd & lf & Hlf & Hk).
  destruct (line_row_lookups _ _ Hlf) as [Hs [v Hv]].
  split; [exact Hnd|]. split.
  - rewrite Hk by reflexivity. exact Hs.
  - exists v. rewrite Hk by reflexivity. exact Hv.
Qed.

(** Syllable rows follow the syllables of the poem in order. Each row has
    [syllable] set to its syllable and every other key as in the word row
    of its own word; in particular [line_number] is always the word row's
    string, never the integer the loop computed. *)
Theorem syllable_rows_from_word_rows (py_int : pystr -> option Z) (p : poem)
  (wrows rows : list dict) :
  get_word_features py_int p = Ok wrows ->
  get_syllable_features py_int p = Ok rows ->
  Forall2 (fun kx r =>
     lookup r (u "syllable") = Some (VStr (snd kx)) /\
     forall k, str_eqb k (u "syllable") = false ->
       lookup r k = lookup (nth (fst kx) wrows []) k)
    (syllable_occurrences p) rows /\
  forall r, In r rows -> exists v, lookup r (u "line_number") = Some (VStr v).
Proof.
  intros Hw Hs. unfold get_syllable_features in Hs. rewrite Hw in Hs. simpl in Hs.
  pose proof (word_rows_lookups _ _ _ Hw) as Hl.
  pose proof (syllables_of_lines_spec wrows Hl _ _ _ _ Hs) as HF.
  split; [exact HF|].
  intros r Hr. unfold syllable_occurrences.
  destruct (Forall2_in_r _ _ _ _ HF Hr) as ((k, x) & Hkx & _ & Hrest).
  rewrite Hrest by reflexivity.
  assert (Hk : k < List.length wrows).
  { rewrite (proj2 (word_features_ok_shape _ _ _ Hw)).
    apply word_syllables_from_bound in Hkx. lia. }
  destruct (Hl _ (@nth_In _ k wrows [] Hk)) as (_ & _ & v & Hv). eauto.
Qed.

Lemma syllable_rows_from_word_rows_witness :
  exists p wrows rows,
    parse_xml doc_rosa = Ok p /\
    get_word_features int_ascii p = Ok wrows /\
    get_syllable_features int_ascii p = Ok rows /\
    Forall2 (fun kx r =>
       lookup r (u "syllable") = Some (VStr (snd kx)) /\
       forall k, str_eqb k (u "syllable") = false ->
         lookup r k = lookup (nth (fst kx) wrows []) k)
      (syllable_occurrences p) rows /\
    (forall r, In r rows -> exists v, lookup r (u "line_number") = Some (VStr v)).
Proof.
  destruct (parse_xml doc_rosa) as [p|e] eqn:E; [|discriminate].
  destruct (get_word_features int_ascii p) as [wrows|e] eqn:Ew;
    [|vm_compute in E; injection E as <-; vm_compute in Ew; discriminate].
  destruct (get_syllable_features int_ascii p) as [rows|e] eqn:Es;
    [|vm_compute in E; injection E as <-; vm_compute in Es; discriminate].
  exists p, wrows, rows. split; [reflexivity|]. split; [exact Ew|]. split; [exact Es|].
  exact (syllable_rows_from_word_rows int_ascii p wrows rows Ew Es).
Defined.

(* ------------------------------------------------------------------ *)
(** ** More of the pipeline *)

Section PipelineMore.

Context {World : Type}.
Variable folder_exists : World -> pystr -> bool.
Variable download_archive : pystr -> pystr -> World -> result World.
Variable read_corpus : pystr -> pystr -> World -> result (list poem).
Variable make_dirs : pystr -> World -> result World.
Variable write_json : value -> pystr -> World -> result World.
Variable py_title : pystr -> pystr.
Variable py_int : pystr -> option Z.
Variable corpora_sources : list corpus.

Local Abbreviation download_one' :=
  (download_one folder_exists download_archive corpora_sources).
Local Abbreviation download_loop' :=
  (download_loop folder_exists download_archive corpora_sources).
Local Abbreviation download_corpora' :=
  (download_corpora folder_exists download_archive corpora_sources).
Local Abbreviation save_poem' := (save_poem make_dirs write_json py_title).
Local Abbreviation save_filtered' :=
  (save_filtered make_dirs write_json py_title py_int corpora_sources).
Local Abbreviation process_corpus' :=
  (process_corpus read_corpus make_dirs write_json py_title py_int corpora_sources).
Local Abbreviation get_corpora' :=
  (get_corpora folder_exists download_archive read_corpus make_dirs write_json
     py_title py_int corpora_sources).

Lemma m_bind_ok {A B} (m : @M World A) (f : A -> M B) s a s1 l1 :
  m s = (Ok a, s1, l1) ->
  mbind m f s = (let '(r, s2, l2) := f a s1 in (r, s2, l1 ++ l2)).
Proof. intro H. unfold mbind. rewrite H. reflexivity. Qed.

Lemma m_bind_err {A B} (m : @M World A) (f : A -> M B) s e s1 l1 :
  m s = (Err e, s1, l1) -> mbind m f s = (Err e, s1, l1).
Proof. intro H. unfold mbind. rewrite H. reflexivity. Qed.

Lemma m_quiet_on_world (f : World -> result World) : quiet (on_world f).
Proof.
  intros s r s' l H. unfold on_world in H.
  destruct (f (world s)); inversion H; auto.
Qed.

Lemma m_quiet_bind {A B} (m : @M World A) (f : A -> M B) :
  quiet m -> (forall a, quiet (f a)) -> quiet (mbind m f).
Proof.
  intros Hm Hf s r s' l H. unfold mbind in H.
  destruct (m s) as [[[a|e] s1] l1] eqn:E.
  - destruct (f a s1) as [[r2 s2] l2] eqn:E2. inversion H; subst.
    destruct (Hm _ _ _ _ E) as [-> H1]. destruct (Hf _ _ _ _ _ E2) as [-> H2].
    split; [reflexivity|congruence].
  - inversion H; subst. exact (Hm _ _ _ _ E).
Qed.

Lemma m_quiet_save_poem (base : pystr) (p : poem) : quiet (save_poem' base p).
Proof.
  unfold save_poem.
  apply m_quiet_bind; [intros s r s' l H; inversion H; auto|intros a].
  apply m_quiet_bind; [apply m_quiet_on_world|intros _].
  apply m_quiet_bind; [intros s r s' l H; inversion H; auto|intros t].
  apply m_quiet_on_world.
Qed.

Lemma m_quiet_iterM {A} (f : A -> @M World unit) (l : list A) :
  (forall x, quiet (f x)) -> quiet (iterM f l).
Proof.
  intro Hf. induction l as [|x l IH]; simpl.
  - intros s r s' l' H. inversion H. auto.
  - apply m_quiet_bind; [apply Hf | intros _; exact IH].
Qed.

Lemma m_download_one_registered (o : pystr) (i : Z) (c : corpus) (s : St) :
  py_index corpora_sources i = Ok c ->
  download_one' o i s =
    if folder_exists (world s) (slash o (folder_name c))
    then (Ok tt, s, [mkLog INFO (msg_downloaded c)])
    else on_world (download_archive (url c) o) s.
Proof.
  intro H. unfold download_one. rewrite (m_bind_ok _ _ s c s []);
    [|unfold lift; rewrite H; reflexivity].
  destruct (folder_exists (world s) (slash o (folder_name c))); [reflexivity|].
  unfold on_world. destruct (download_archive (url c) o (world s)); reflexivity.
Qed.

Lemma m_download_one_ok (o : pystr) (i : Z) (s s1 : St) (l1 : list log_record) :
  download_one' o i s = (Ok tt, s1, l1) ->
  error_records l1 = [] /\ out s1 = out s.
Proof.
  intro H. destruct (py_index corpora_sources i) as [c|e] eqn:Hc.
  - rewrite (m_download_one_registered o i c s Hc) in H.
    destruct (folder_exists (world s) (slash o (folder_name c))).
    + inversion H; subst. auto.
    + destruct (m_quiet_on_world _ _ _ _ _ H) as [-> Ho]. auto.
  - unfold download_one, mbind, lift in H. rewrite Hc in H. discriminate.
Qed.

(** [iterM] stops at the first step that raises. *)
Lemma iterM_app_err {A} (f : A -> @M World unit) (l1 : list A) (x : A) (l2 : list A)
  s s2 ls s3 e l3 :
  iterM f l1 s = (Ok tt, s2, ls) -> f x s2 = (Err e, s3, l3) ->
  iterM f (l1 ++ x :: l2) s = (Err e, s3, ls ++ l3).
Proof.
  revert s ls; induction l1 as [|y l1 IH]; intros s ls H1 H2; simpl in *.
  - injection H1 as <- <-. simpl. apply m_bind_err. exact H2.
  - unfold mbind in H1 |- *. destruct (f y s) as [[[a|e'] s1] m1]; [|discriminate].
    destruct (iterM f l1 s1) as [[r' s1'] m1'] eqn:E.
    destruct r' as [[]|e']; [|discriminate]. injection H1 as <- <-.
    rewrite (IH _ _ E H2). rewrite app_assoc. reflexivity.
Qed.

Lemma save_poem_authors (base : pystr) (ps : list poem) s s' l :
  iterM (save_poem' base) ps s = (Ok tt, s', l) ->
  Forall (fun p => author p <> None) ps.
Proof.
  revert s s' l; induction ps as [|p ps IH]; intros s s' l H; [constructor|].
  simpl in H. unfold mbind in H.
  destruct (save_poem' base p s) as [[[[]|e] s1] l1] eqn:Ep; [|discriminate].
  destruct (iterM (save_poem' base) ps s1) as [[r2 s2] l2] eqn:E2.
  injection H as -> _ _. constructor; [|exact (IH _ _ _ E2)].
  intro Ha. unfold save_poem, mbind, lift, author_of in Ep. rewrite Ha in Ep.
  discriminate.
Qed.

Lemma appends_only_keep {A} (P : collected -> Prop) (m : @M World A) :
  (forall s r s' l, m s = (r, s', l) -> out s' = out s) -> appends_only P m.
Proof. intros H s r s' l E. exists []. rewrite app_nil_r. split; [exact (H _ _ _ _ E)|constructor]. Qed.

Lemma appends_only_quiet {A} (P : collected -> Prop) (m : @M World A) :
  quiet m -> appends_only P m.
Proof. intro H. apply appends_only_keep. intros s r s' l E. exact (proj2 (H _ _ _ _ E)). Qed.

Lemma appends_only_bind {A B} (P : collected -> Prop) (m : @M World A) (f : A -> M B) :
  appends_only P m -> (forall a, appends_only P (f a)) -> appends_only P (mbind m f).
Proof.
  intros Hm Hf s r s' l H. unfold mbind in H.
  destruct (m s) as [[[a|e] s1] l1] eqn:E.
  - destruct (f a s1) as [[r2 s2] l2] eqn:E2. inversion H; subst.
    destruct (Hm _ _ _ _ E) as (a1 & H1 & F1). destruct (Hf _ _ _ _ _ E2) as (a2 & H2 & F2).
    exists (a1 ++ a2). rewrite H2, H1, app_assoc. split; [reflexivity|].
    apply Forall_app; split; assumption.
  - inversion H; subst. exact (Hm _ _ _ _ E).
Qed.

Lemma appends_only_iterM {A} (P : collected -> Prop) (f : A -> @M World unit) (l : list A) :
  (forall x, appends_only P (f x)) -> appends_only P (iterM f l).
Proof.
  intro Hf. induction l as [|x l IH]; simpl.
  - apply appends_only_keep. intros s r s' l' H. inversion H. reflexivity.
  - apply appends_only_bind; [apply Hf | intros _; exact IH].
Qed.

Lemma appends_only_lift {A} (P : collected -> Prop) (r0 : result A) :
  appends_only P (@lift World A r0).
Proof. apply appends_only_keep. intros s r s' l H. inversion H. reflexivity. Qed.

Lemma appends_only_append (P : collected -> Prop) (x : collected) :
  P x -> appends_only P (@append World x).
Proof.
  intros Hx s r s' l H. inversion H; subst. exists [x]. split; [reflexivity|].
  constructor; [exact Hx|constructor].
Qed.

Lemma save_filtered_appends (base : pystr) (i : Z) (g : pystr) (p : poem) :
  appends_only (collected_for (Some g)) (save_filtered' base i g p).
Proof.
  unfold save_filtered.
  apply appends_only_bind; [apply appends_only_lift|intros rows].
  apply appends_only_bind; [apply appends_only_lift|intros a].
  destruct rows as [|r rs].
  - apply appends_only_keep. intros s r0 s' l H. inversion H. reflexivity.
  - apply appends_only_bind; [apply appends_only_quiet, m_quiet_on_world|intros _].
    apply appends_only_bind; [apply appends_only_lift|intros t].
    apply appends_only_bind; [apply appends_only_quiet, m_quiet_on_world|intros _].
    apply appends_only_append. exact I.
Qed.

Lemma process_corpus_appends (o : pystr) (g : option pystr) (i : Z) :
  appends_only (collected_for g) (process_corpus' o g i).
Proof.
  unfold process_corpus.
  apply appends_only_bind; [apply appends_only_lift|intros c].
  apply appends_only_bind;
    [apply appends_only_keep; intros s r s' l H; inversion H; reflexivity|intros ps].
  apply appends_only_bind;
    [apply appends_only_quiet, m_quiet_iterM; intro; apply m_quiet_save_poem|intros _].
  destruct g as [gr|].
  - destruct (in_list gr (granularity c)).
    + apply appends_only_iterM. intro p. apply save_filtered_appends.
    + apply appends_only_keep. intros s r s' l H. inversion H. reflexivity.
  - apply appends_only_append. exact I.
Qed.

Lemma download_one_keeps (o : pystr) (i : Z) s r s' l :
  download_one' o i s = (r, s', l) -> out s' = out s.
Proof.
  intro H. destruct (py_index corpora_sources i) as [c|e] eqn:Hc.
  - rewrite (m_download_one_registered o i c s Hc) in H.
    destruct (folder_exists (world s) (slash o (folder_name c))).
    + inversion H. reflexivity.
    + exact (proj2 (m_quiet_on_world _ _ _ _ _ H)).
  - unfold download_one, mbind, lift in H. rewrite Hc in H. inversion H. reflexivity.
Qed.

Lemma download_loop_keeps (o : pystr) (idx : list Z) s r s' l :
  download_loop' o idx s = (r, s', l) -> out s' = out s.
Proof.
  revert s r s' l; induction idx as [|i idx IH]; intros s r s' l H; simpl in H.
  - unfold mret in H. inversion H. reflexivity.
  - destruct (download_one' o i s) as [[[a|e] s1] l1] eqn:E.
    + destruct (download_loop' o idx s1) as [[r2 s2] l2] eqn:E2. inversion H; subst.
      rewrite (IH _ _ _ _ E2). exact (download_one_keeps _ _ _ _ _ _ E).
    + rewrite <- (download_one_keeps _ _ _ _ _ _ E).
      destruct e; inversion H; reflexivity.
Qed.

Lemma download_loop_present (o : pystr) (idx : list Z) (s : St) :
  (forall i, In i idx -> exists c, py_index corpora_sources i = Ok c /\
      folder_exists (world s) (slash o (folder_name c)) = true) ->
  exists logs, download_loop' o idx s = (Ok tt, s, logs) /\
    Forall2 (fun i r => exists c, py_index corpora_sources i = Ok c /\
                                  r = mkLog INFO (msg_downloaded c)) idx logs.
Proof.
  induction idx as [|i idx IH]; intro H.
  - exists []. split; [reflexivity|constructor].
  - destruct (H i (or_introl eq_refl)) as (c & Hc & Hf).
    destruct IH as (logs & E & F); [intros j Hj; apply H; right; exact Hj|].
    exists (mkLog INFO (msg_downloaded c) :: logs). simpl.
    rewrite (m_download_one_registered o i c s Hc), Hf, E. split; [reflexivity|].
    constructor; [exists c; auto|exact F].
Qed.

(** Without indices ([None] or an empty list) [get_corpora] downloads
    nothing, collects nothing, leaves the world as it was and logs only
    ["No corpus selected. Nothing will be downloaded"]; iterating [None]
    raises a [TypeError] that the [finally] discards. *)
Theorem get_corpora_without_indices (g : option pystr) (o : pystr) (s0 : St) :
  get_corpora' None g o s0 = (Ok [], mkSt (world s0) [], [mkLog ERROR MSG_NO_CORPUS]) /\
  get_corpora' (Some []) g o s0 = (Ok [], mkSt (world s0) [], [mkLog ERROR MSG_NO_CORPUS]).
Proof. split; reflexivity. Qed.

(** When every index is registered and its corpus folder already exists,
    [download_corpora] downloads nothing and changes nothing: it logs one
    ["Corpus <name> already downloaded"] record per index, in order. *)
Theorem download_corpora_present_folders (idx : list Z) (o : pystr) (s : St) :
  idx <> [] ->
  (forall i, In i idx -> exists c, py_index corpora_sources i = Ok c /\
      folder_exists (world s) (slash o (folder_name c)) = true) ->
  exists logs, download_corpora' (Some idx) o s = (Ok tt, s, logs) /\
    Forall2 (fun i r => exists c, py_index corpora_sources i = Ok c /\
                                  r = mkLog INFO (msg_downloaded c)) idx logs.
Proof.
  intros Hne H. destruct idx as [|i idx]; [contradiction|].
  exact (download_loop_present o (i :: idx) s H).
Qed.

(** Whatever the indices and whatever fails on the way, [get_corpora]
    returns a list whose entries are all lists of poems when no
    granularity is asked, and all non-empty lists of rows when one is:
    it never collects an empty row list. *)
Theorem get_corpora_collected_kinds (idx : option (list Z)) (g : option pystr)
  (o : pystr) (s0 : St) :
  exists res, fst (fst (get_corpora' idx g o s0)) = Ok res /\
              Forall (collected_for g) res.
Proof.
  unfold get_corpora. cbv zeta.
  assert (Hm : appends_only (collected_for g)
                 (mbind (download_corpora' idx o)
                    (fun _ => corpus_loop read_corpus make_dirs write_json py_title
                                py_int corpora_sources o g idx))).
  { apply appends_only_bind.
    - apply appends_only_keep. intros s r s' l H. unfold download_corpora in H.
      destruct idx as [[|i l']|].
      + inversion H. reflexivity.
      + exact (download_loop_keeps _ _ _ _ _ _ H).
      + inversion H. reflexivity.
    - intros _. unfold corpus_loop. destruct idx as [l'|].
      + apply appends_only_iterM. intro i. apply process_corpus_appends.
      + apply appends_only_lift. }
  destruct (mbind _ _ (mkSt (world s0) [])) as [[r s1] l] eqn:E.
  destruct (Hm _ _ _ _ E) as (added & Ho & F). simpl in Ho.
  exists (out s1). split; [reflexivity|]. rewrite Ho. exact F.
Qed.

(** A parsed poem whose author is [None] makes writing it raise
    [AttributeError] before anything of it is written. [get_corpora] then
    returns an empty collection, whatever the granularity; the world it
    leaves is the one after writing the poems before that poem, so the
    poems after it are never written; and its only log records are the
    download's, none of them an error. *)
Theorem get_corpora_poem_without_author (i : Z) (c : corpus) (g : option pystr)
  (o : pystr) (s0 s1 s2 : St) (l1 l2 : list log_record) (ps1 ps2 : list poem) (p : poem) :
  py_index corpora_sources i = Ok c ->
  download_one' o i (mkSt (world s0) []) = (Ok tt, s1, l1) ->
  read_corpus (reader c) (slash o (folder_name c)) (world s1) = Ok (ps1 ++ p :: ps2) ->
  iterM (save_poem' (slash o (folder_name c))) ps1 s1 = (Ok tt, s2, l2) ->
  author p = None ->
  get_corpora' (Some [i]) g o s0 = (Ok [], mkSt (world s2) [], l1) /\
  error_records l1 = [].
Proof.
  intros Hc Hdl Hread Hsave Ha.
  destruct (m_download_one_ok _ _ _ _ _ Hdl) as [Hl1 Ho1].
  destruct (m_quiet_iterM _ ps1 (m_quiet_save_poem _) _ _ _ _ Hsave) as [-> Ho2].
  assert (Hp : save_poem' (slash o (folder_name c)) p s2 = (Err AttributeError, s2, [])).
  { unfold save_poem, mbind, lift, author_of. rewrite Ha. reflexivity. }
  pose proof (iterM_app_err _ _ _ ps2 _ _ _ _ _ _ Hsave Hp) as Hall.
  assert (Hpc : process_corpus' o g i s1 = (Err AttributeError, s2, [])).
  { unfold process_corpus.
    rewrite (m_bind_ok _ _ s1 c s1 []); [|unfold lift; rewrite Hc; reflexivity].
    rewrite (m_bind_ok _ _ s1 (ps1 ++ p :: ps2) s1 []); [|unfold read; rewrite Hread; reflexivity].
    rewrite (m_bind_err _ _ s1 AttributeError s2 []); [reflexivity|exact Hall]. }
  unfold get_corpora.
  rewrite (m_bind_ok _ _ _ tt s1 (l1 ++ []));
    [|cbn [download_corpora download_loop]; rewrite Hdl; reflexivity].
  cbn [corpus_loop iterM].
  rewrite (m_bind_err _ _ s1 AttributeError s2 []); [|exact Hpc].
  destruct s2 as [w2 o2]. simpl in Ho2. rewrite Ho2, Ho1. simpl.
  rewrite !app_nil_r. split; [reflexivity|exact Hl1].
Qed.

(** A granularity the corpus lists but [filter_features] does not handle
    (none of stanza, line, word, syllable) gives, once the corpus is
    downloaded, read and its poems written, an empty collection and no
    error record: unlike an unlisted granularity, nothing reports it. *)
Theorem get_corpora_unhandled_granularity (i : Z) (c : corpus) (g o : pystr)
  (s0 s1 s2 : St) (ps : list poem) (l1 l2 : list log_record) :
  py_index corpora_sources i = Ok c ->
  in_list g (granularity c) = true ->
  str_eqb g (u "stanza") = false -> str_eqb g (u "line") = false ->
  str_eqb g (u "word") = false -> str_eqb g (u "syllable") = false ->
  download_one' o i (mkSt (world s0) []) = (Ok tt, s1, l1) ->
  read_corpus (reader c) (slash o (folder_name c)) (world s1) = Ok ps ->
  iterM (save_poem' (slash o (folder_name c))) ps s1 = (Ok tt, s2, l2) ->
  let '(r, _, logs) := get_corpora' (Some [i]) (Some g) o s0 in
  r = Ok [] /\ error_records logs = [].
Proof.
  intros Hc Hg H1 H2 H3 H4 Hdl Hread Hsave.
  destruct (m_download_one_ok _ _ _ _ _ Hdl) as [Hl1 Ho1].
  destruct (m_quiet_iterM _ ps (m_quiet_save_poem _) _ _ _ _ Hsave) as [-> Ho2].
  pose proof (save_poem_authors _ _ _ _ _ Hsave) as Hauth.
  assert (Hf : forall q, In q ps ->
            save_filtered' (slash o (folder_name c)) i g q s2 = (Ok tt, s2, [])).
  { intros q Hq. apply Forall_forall with (x := q) in Hauth; [|exact Hq].
    unfold save_filtered, filter_features, reduce.
    rewrite (m_bind_ok _ _ s2 [] s2 []);
      [|unfold lift; rewrite Hc; simpl; rewrite Hg, H1, H2, H3, H4; reflexivity].
    unfold mbind, lift, author_of.
    destruct (author q) as [a|]; [reflexivity|contradiction]. }
  assert (Hit : iterM (save_filtered' (slash o (folder_name c)) i g) ps s2 = (Ok tt, s2, [])).
  { clear -Hf. induction ps as [|q ps IH]; [reflexivity|]. simpl.
    rewrite (m_bind_ok _ _ s2 tt s2 []); [|apply Hf; left; reflexivity].
    rewrite IH; [reflexivity|]. intros q' Hq'. apply Hf. right. exact Hq'. }
  assert (Hpc : process_corpus' o (Some g) i s1 = (Ok tt, s2, [])).
  { unfold process_corpus.
    rewrite (m_bind_ok _ _ s1 c s1 []); [|unfold lift; rewrite Hc; reflexivity].
    rewrite (m_bind_ok _ _ s1 ps s1 []); [|unfold read; rewrite Hread; reflexivity].
    rewrite (m_bind_ok _ _ s1 tt s2 []); [|exact Hsave].
    rewrite Hg, Hit. reflexivity. }
  unfold get_corpora.
  rewrite (m_bind_ok _ _ _ tt s1 (l1 ++ []));
    [|cbn [download_corpora download_loop]; rewrite Hdl; reflexivity].
  cbn [corpus_loop iterM].
  rewrite (m_bind_ok _ _ _ tt s2 []); [|exact Hpc].
  simpl. rewrite Ho2, Ho1. simpl. split; [reflexivity|].
  rewrite !app_nil_r. exact Hl1.
Qed.

End PipelineMore.

Lemma download_corpora_present_folders_witness :
  exists logs,
    download_corpora tw_exists tw_download_ok [plsdo_corpus] (Some [0%Z; 0%Z]) OUT
      (mkSt [plsdo_dir] []) = (Ok tt, mkSt [plsdo_dir] [], logs) /\
    Forall2 (fun i r => exists c, py_index [plsdo_corpus] i = Ok c /\
                                  r = mkLog INFO (msg_downloaded c)) [0%Z; 0%Z] logs.
Proof.
  apply (download_corpora_present_folders tw_exists tw_download_ok [plsdo_corpus]
           [0%Z; 0%Z] OUT (mkSt [plsdo_dir] [])).
  - discriminate.
  - intros i [<-|[<-|[]]]; exists plsdo_corpus; split; reflexivity.
Defined.

Lemma get_corpora_poem_without_author_witness :
  tw_exists [ana_dir; plsdo_dir] luis_dir = false /\
  get_corpora tw_exists tw_download_ok
    (fun _ _ _ => get_features [doc_rosa; doc_anon; doc_luis])
    tw_make_dirs tw_write ascii_title int_ascii [plsdo_corpus] (Some [0%Z])
    (Some (u "line")) OUT (mkSt [plsdo_dir] []) =
  (Ok [], mkSt [ana_dir; plsdo_dir] [], [mkLog INFO (msg_downloaded plsdo_corpus)]) /\
  error_records [mkLog INFO (msg_downloaded plsdo_corpus)] = [].
Proof.
  assert (E : exists q p p', get_features [doc_rosa; doc_anon; doc_luis] = Ok [q; p; p']).
  { vm_compute. eexists _, _, _. reflexivity. }
  destruct E as (q & p & p' & E).
  assert (Hp : author p = None) by (vm_compute in E; injection E as _ <- _; reflexivity).
  split; [reflexivity|].
  refine (get_corpora_poem_without_author tw_exists tw_download_ok
            (fun _ _ _ => get_features [doc_rosa; doc_anon; doc_luis]) tw_make_dirs tw_write
            ascii_title int_ascii [plsdo_corpus] 0 plsdo_corpus (Some (u "line")) OUT
            (mkSt [plsdo_dir] []) (mkSt [plsdo_dir] []) (mkSt [ana_dir; plsdo_dir] [])
            [mkLog INFO (msg_downloaded plsdo_corpus)] [] [q] [p'] p _ _ _ _ Hp).
  - reflexivity.
  - vm_compute. reflexivity.
  - exact E.
  - vm_compute in E. injection E as <- _ _. vm_compute. reflexivity.
Defined.

Lemma get_corpora_unhandled_granularity_witness :
  let '(r, _, logs) :=
    get_corpora tw_exists tw_download_ok tw_read tw_make_dirs tw_write
      ascii_title int_ascii [verse_corpus] (Some [0%Z]) (Some (u "verse")) OUT
      (mkSt [plsdo_dir] []) in
  r = Ok [] /\ error_records logs = [].
Proof.
  refine (get_corpora_unhandled_granularity tw_exists tw_download_ok tw_read
            tw_make_dirs tw_write ascii_title int_ascii [verse_corpus] 0 verse_corpus
            (u "verse") OUT (mkSt [plsdo_dir] []) (mkSt [plsdo_dir] [])
            (mkSt [ana_dir; plsdo_dir] []) rosa_poems
            [mkLog INFO (msg_downloaded verse_corpus)] [] _ _ _ _ _ _ _ _ _);
    vm_compute; reflexivity.
Defined.

(* ------------------------------------------------------------------ *)
(** ** [progress_bar] *)

Lemma last_cons_default {A} (x d : A) (l : list A) : last (x :: l) d = last l x.
Proof.
  revert x d; induction l as [|y l IH]; intros x d; [reflexivity|].
  change (last (x :: y :: l) d) with (last (y :: l) d).
  change (last (y :: l) x) with (last (y :: l) x).
  rewrite (IH y d), (IH y x). reflexivity.
Qed.

Lemma run_hook_const (bsize : Z) (calls : list (Z * option Z)) (h : hook_state) :
  let h' := run_hook h (map (fun c => (fst c, bsize, snd c)) calls) in
  bar_n (bar h') = (bar_n (bar h) + (last_b h' - last_b h) * bsize)%Z /\
  last_b h' = last (map fst calls) (last_b h) /\
  bar_total (bar h') =
    fold_left (fun acc c => match snd c with Some ts => Some ts | None => acc end)
              calls (bar_total (bar h)).
Proof.
  revert h; induction calls as [|[b ts] calls IH]; intro h; cbn zeta.
  - simpl. split; [lia|]. split; reflexivity.
  - destruct (IH (update_to b bsize ts h)) as (H1 & H2 & H3). cbn zeta in H1, H2, H3.
    unfold run_hook in *. simpl fold_left. simpl map.
    rewrite last_cons_default.
    split; [|split].
    + assert (Hn : bar_n (bar (update_to b bsize ts h)) =
                   (bar_n (bar h) + (b - last_b h) * bsize)%Z)
        by (destruct ts; reflexivity).
      assert (Hb : last_b (update_to b bsize ts h) = b) by reflexivity.
      rewrite H1, Hn, Hb. lia.
    + rewrite H2. reflexivity.
    + rewrite H3. unfold update_to, tqdm_update. destruct ts; reflexivity.
Qed.

(** With a fixed block size, the hook turns [urlretrieve]'s cumulative
    block numbers into increments: after any sequence of calls the bar's
    counter has grown by the last block number times the block size, and
    its total is the last size passed (unchanged if none was). *)
Theorem progress_bar_counts_blocks (t : tqdm_bar) (bsize : Z)
  (calls : list (Z * option Z)) :
  let h := run_hook (progress_bar t) (map (fun c => (fst c, bsize, snd c)) calls) in
  bar_n (bar h) = (bar_n t + last (map fst calls) 0 * bsize)%Z /\
  bar_total (bar h) =
    fold_left (fun acc c => match snd c with Some ts => Some ts | None => acc end)
              calls (bar_total t).
Proof.
  destruct (run_hook_const bsize calls (progress_bar t)) as (H1 & H2 & H3).
  cbn zeta in *. simpl in H1, H2, H3. rewrite H1, H2. split; [lia | exact H3].
Qed.
